(** * Verification of simple-rss.js: the RSS feed generator and its handlers

    A shallow embedding of [SimpleRSSGenerator], [SimpleShopifyAPI] and the
    Express handlers of [src/simple-rss.js].

    JavaScript strings are sequences of UTF-16 code units; [length],
    [substring], [split], [trim] and the regular expressions of the source
    (written without the [u] flag) all work on code units, so a string is
    modelled as a list of code units. *)

From stdpp Require Import base list gmap strings pretty.
From Stdlib Require Import NArith Lia.

Local Open Scope N_scope.
Local Open Scope nat_scope.

(** ** JavaScript strings *)

Module JsString.

Abbreviation char := N.
Abbreviation jsstring := (list N).

(** An ASCII literal of the source. *)
Definition lit (s : string) : jsstring :=
  map Ascii.N_of_ascii (String.list_ascii_of_string s).

Definition c_lt : char := 60%N.        (* < *)
Definition c_gt : char := 62%N.        (* > *)
Definition c_amp : char := 38%N.       (* & *)
Definition c_semi : char := 59%N.      (* ; *)
Definition c_space : char := 32%N.
Definition c_comma : char := 44%N.

(** Code units of the Turkish letters of the source's literals. *)
Definition c_g_breve : char := 287%N.      (* U+011F *)
Definition c_U_uml : char := 220%N.        (* U+00DC *)
Definition c_u_uml : char := 252%N.        (* U+00FC *)
Definition c_dotless_i : char := 305%N.    (* U+0131 *)
Definition c_s_cedilla : char := 351%N.    (* U+015F *)

(** The outcome of a call that may throw; an error carries its [message]. *)
Inductive result (A : Type) : Type :=
| Ok (a : A)
| Throw (message : jsstring).
Arguments Ok {A} a.
Arguments Throw {A} message.

(** [x || y] on values that are a string or [undefined]:
    [undefined] and the empty string are the falsy ones. *)
Definition truthy (o : option jsstring) : bool :=
  match o with
  | Some (_ :: _) => true
  | _ => false
  end.

Definition js_or (a b : option jsstring) : option jsstring :=
  if truthy a then a else b.

(** A value inside a template literal: [undefined] prints as its name. *)
Definition template (o : option jsstring) : jsstring :=
  match o with
  | Some s => s
  | None => lit "undefined"
  end.

(** [x || 'literal'] *)
Definition or_default (a : option jsstring) (d : jsstring) : jsstring :=
  match a with
  | Some (c :: r) => c :: r
  | _ => d
  end.

(** The class [\s] of a regular expression, which is also the set that
    [String.prototype.trim] removes: WhiteSpace and LineTerminator. *)
Definition is_ws (c : char) : bool :=
  ((9 <=? c) && (c <=? 13) || (c =? 32) || (c =? 160) || (c =? 5760)
   || (8192 <=? c) && (c <=? 8202) || (c =? 8232) || (c =? 8233)
   || (c =? 8239) || (c =? 8287) || (c =? 12288) || (c =? 65279))%N.

Definition not_ws (c : char) : bool := negb (is_ws c).

(** [s.startsWith(pat)]: the test a regular expression made of literal
    characters performs at one position. *)
Fixpoint starts_with (pat s : jsstring) : bool :=
  match pat, s with
  | [], _ => true
  | p :: pat', c :: s' => (p =? c)%N && starts_with pat' s'
  | _ :: _, [] => false
  end.

(** [s.replace(/pat/g, rep)] for a pattern of literal characters (not empty)
    and a replacement without [$]: scan from the left; at a match emit [rep]
    and resume after the match, else emit the character.  [skip] counts the
    characters of the current match still to pass over. *)
Fixpoint replace_from (pat rep : jsstring) (skip : nat) (s : jsstring)
  : jsstring :=
  match s with
  | [] => []
  | c :: r =>
      match skip with
      | S k => replace_from pat rep k r
      | O =>
          if starts_with pat s
          then rep ++ replace_from pat rep (length pat - 1) r
          else c :: replace_from pat rep 0 r
      end
  end.

Definition replace_all (pat rep s : jsstring) : jsstring :=
  replace_from pat rep 0 s.

(** [a === b] on strings *)
Fixpoint string_eqb (a b : jsstring) : bool :=
  match a, b with
  | [], [] => true
  | x :: a', y :: b' => (x =? y)%N && string_eqb a' b'
  | _, _ => false
  end.

(** [s.includes(pat)] *)
Fixpoint includes (pat s : jsstring) : bool :=
  starts_with pat s ||
  match s with
  | [] => false
  | _ :: r => includes pat r
  end.

(** Is there a [>] in [s]? *)
Fixpoint has_gt (s : jsstring) : bool :=
  match s with
  | [] => false
  | c :: r => (c =? c_gt)%N || has_gt r
  end.

(** [/<[^>]*>/.test(s)]: some [<] has a [>] after it. *)
Fixpoint matches_tag (s : jsstring) : bool :=
  match s with
  | [] => false
  | c :: r => (c =? c_lt)%N && has_gt r || matches_tag r
  end.

(** [s.replace(/<[^>]*>/g, '')].  At a [<] the pattern matches when a [>]
    follows somewhere (the class [[^>]] takes every other code unit, line
    terminators too), and the match ends at the first such [>]; [in_tag]
    says that the scan is inside a match. *)
Fixpoint strip_tags_from (in_tag : bool) (s : jsstring) : jsstring :=
  match s with
  | [] => []
  | c :: r =>
      if in_tag then
        if (c =? c_gt)%N then strip_tags_from false r
        else strip_tags_from true r
      else if (c =? c_lt)%N && has_gt r then strip_tags_from true r
      else c :: strip_tags_from false r
  end.

Definition strip_tags (s : jsstring) : jsstring := strip_tags_from false s.

(** [s.replace(/\s+/g, ' ')]: every maximal run of white space becomes one
    space; [in_run] says that the previous character was white space. *)
Fixpoint collapse_ws_from (in_run : bool) (s : jsstring) : jsstring :=
  match s with
  | [] => []
  | c :: r =>
      if is_ws c then
        if in_run then collapse_ws_from true r
        else c_space :: collapse_ws_from true r
      else c :: collapse_ws_from false r
  end.

Definition collapse_ws (s : jsstring) : jsstring := collapse_ws_from false s.

Fixpoint trim_start (s : jsstring) : jsstring :=
  match s with
  | [] => []
  | c :: r => if is_ws c then trim_start r else s
  end.

Fixpoint trim_end (s : jsstring) : jsstring :=
  match s with
  | [] => []
  | c :: r =>
      match trim_end r with
      | [] => if is_ws c then [] else [c]
      | r' => c :: r'
      end
  end.

(** A string in which every white space character is a single space that
    does not follow white space; [prev_ws] says that white space precedes. *)
Fixpoint collapsed (prev_ws : bool) (s : jsstring) : bool :=
  match s with
  | [] => true
  | c :: r =>
      if is_ws c then (c =? c_space)%N && negb prev_ws && collapsed true r
      else collapsed false r
  end.

(** A string that does not start with white space. *)
Definition starts_clean (s : jsstring) : bool :=
  match s with
  | [] => true
  | c :: _ => not_ws c
  end.

(** [s.trim()] *)
Definition trim (s : jsstring) : jsstring := trim_end (trim_start s).

(** [s.split(sep)] for a separator of one character: never empty, the empty
    string gives one empty segment. *)
Fixpoint split_on (sep : char) (s : jsstring) : list jsstring :=
  match s with
  | [] => [[]]
  | c :: r =>
      if (c =? sep)%N then [] :: split_on sep r
      else
        match split_on sep r with
        | h :: t => (c :: h) :: t
        | [] => [[c]]
        end
  end.

End JsString.

(** ** The feed builder: class [SimpleRSSGenerator] *)

Module Feed.
Import JsString.

(** A product as the upstream API returns it; the fields the source tests
    before use are optional. *)
Record Image := { src : jsstring }.
Record Variant := { price : jsstring }.

Record Product := {
  title : jsstring;
  body_html : option jsstring;
  description : option jsstring;
  handle : jsstring;
  updated_at : jsstring;
  images : option (list Image);
  variants : option (list Variant);
  product_type : option jsstring;
  tags : option jsstring
}.

(** The [config] argument; [{}] is [empty_config]. *)
Record Config := {
  cfg_title : option jsstring;
  cfg_description : option jsstring;
  cfg_link : option jsstring;
  cfg_language : option jsstring
}.

Definition empty_config : Config :=
  {| cfg_title := None; cfg_description := None;
     cfg_link := None; cfg_language := None |}.

(** The object handed to the XML builder. *)
Record Guid := { guid_isPermaLink : jsstring; guid_text : jsstring }.
Record MediaContent :=
  { mc_url : jsstring; mc_type : jsstring; mc_medium : jsstring }.
Record MediaThumbnail := { mt_url : jsstring }.
Record MediaPrice := { mp_currency : jsstring; mp_text : jsstring }.

Record RssItem := {
  item_title : jsstring;
  item_description : jsstring;
  item_link : jsstring;
  item_guid : Guid;
  item_pubDate : jsstring;
  item_dc_creator : jsstring;
  item_media_content : option (list MediaContent);
  item_media_thumbnail : option MediaThumbnail;
  item_media_price : option MediaPrice;
  item_category : option jsstring;
  item_dc_subject : option (list jsstring)
}.

Record Channel := {
  ch_title : jsstring;
  ch_description : jsstring;
  ch_link : jsstring;
  ch_language : jsstring;
  ch_lastBuildDate : jsstring;
  ch_generator : jsstring;
  ch_item : list RssItem
}.

Record RssObject := {
  rss_version : jsstring;
  rss_xmlns_media : jsstring;
  rss_xmlns_dc : jsstring;
  rss_channel : Channel
}.

(** What the source takes from the JavaScript runtime and from xml2js:
    [Date], and [Builder.buildObject], which returns the document or throws
    an error carrying a message. *)
Record Runtime := {
  time : Type;
  Date_of_string : jsstring -> time;          (* new Date(s) *)
  toUTCString : time -> jsstring;
  buildObject : RssObject -> result jsstring;
  (* the message of the TypeError of [undefined.length] *)
  undefined_length_message : jsstring
}.

(** The literals of the source. *)
Definition default_title : jsstring :=       (* 'Mağaza Ürünleri' *)
  lit "Ma" ++ [c_g_breve] ++ lit "aza " ++ [c_U_uml] ++ lit "r"
  ++ [c_u_uml] ++ lit "nleri".

Definition default_description : jsstring :=  (* 'Mağazamızdaki tüm ürünler' *)
  lit "Ma" ++ [c_g_breve] ++ lit "azam" ++ [c_dotless_i] ++ lit "zdaki t"
  ++ [c_u_uml] ++ lit "m " ++ [c_u_uml] ++ lit "r" ++ [c_u_uml]
  ++ lit "nler".

Definition default_link : jsstring := lit "https://shop.myshopify.com".
Definition default_language : jsstring := lit "tr".
Definition ellipsis : jsstring := lit "...".

Definition amp_entity : jsstring := lit "&amp;".
Definition lt_entity : jsstring := lit "&lt;".
Definition gt_entity : jsstring := lit "&gt;".
Definition quot_entity : jsstring := lit "&quot;".
Definition apos_entity : jsstring := lit "&#39;".
Definition nbsp_entity : jsstring := lit "&nbsp;".

(** The table of the six [replace] calls, in the order of the source. *)
Definition entity_table : list (jsstring * jsstring) :=
  [ (amp_entity, [c_amp]); (lt_entity, [c_lt]); (gt_entity, [c_gt]);
    (quot_entity, [34%N]); (apos_entity, [39%N]); (nbsp_entity, [c_space]) ].

(** Lines 140-146: the chain of six replacements. *)
Definition decode_entities (s : jsstring) : jsstring :=
  replace_all nbsp_entity [c_space]
    (replace_all apos_entity [39%N]
      (replace_all quot_entity [34%N]
        (replace_all gt_entity [c_gt]
          (replace_all lt_entity [c_lt]
            (replace_all amp_entity [c_amp] s))))).

(** Does [s] contain one of the six entities? *)
Definition has_entity (s : jsstring) : bool :=
  existsb (fun e => includes (fst e) s) entity_table.

(** A character that may stand inside a character reference. *)
Definition plain (c : char) : Prop := c <> c_amp /\ c <> c_semi.



(** The shape of a character reference: [&], then characters other than
    [&] and [;], then [;]. *)
Fixpoint entity_tail (rest : jsstring) : bool :=
  match rest with
  | [] => false
  | c :: r =>
      if (c =? c_semi)%N then
        match r with [] => true | _ :: _ => false end
      else negb (c =? c_amp)%N && entity_tail r
  end.

Definition entity_shaped (e : jsstring) : bool :=
  match e with
  | c :: rest => (c =? c_amp)%N && entity_tail rest
  | [] => false
  end.

(** Lines 139-148: the value of [clean] before the length test. *)
Definition sanitize (html : jsstring) : jsstring :=
  trim (collapse_ws (decode_entities (strip_tags html))).

(** [cleanDescription(html)]; the argument is [undefined] when the product
    has neither field. *)
Definition cleanDescription (html : option jsstring) : jsstring :=
  match html with
  | None => []
  | Some [] => []
  | Some h =>
      let clean := sanitize h in
      if 500 <? length clean then take 497 clean ++ ellipsis else clean
  end.

Section Generator.
Context (rt : Runtime).

(** [createRSSItem(product, config)] *)
Definition createRSSItem (product : Product) (config : Config) : RssItem :=
  let baseUrl := or_default (cfg_link config) default_link in
  {| item_title := title product;
     item_description :=
       cleanDescription (js_or (body_html product) (description product));
     item_link := baseUrl ++ lit "/products/" ++ handle product;
     item_guid :=
       {| guid_isPermaLink := lit "true";
          guid_text := baseUrl ++ lit "/products/" ++ handle product |};
     item_pubDate :=
       toUTCString rt (Date_of_string rt (updated_at product));
     item_dc_creator := or_default (cfg_title config) default_title;
     item_media_content :=
       match images product with
       | Some (image :: rest) =>
           Some (map (fun image =>
                        {| mc_url := src image;
                           mc_type := lit "image/jpeg";
                           mc_medium := lit "image" |})
                     (image :: rest))
       | _ => None
       end;
     item_media_thumbnail :=
       match images product with
       | Some (image :: _) => Some {| mt_url := src image |}
       | _ => None
       end;
     item_media_price :=
       match variants product with
       | Some (variant :: _) =>
           Some {| mp_currency := lit "TRY"; mp_text := price variant |}
       | _ => None
       end;
     item_category :=
       match product_type product with
       | Some (c :: r) => Some (c :: r)
       | _ => None
       end;
     item_dc_subject :=
       match tags product with
       | Some (c :: r) => Some (map trim (split_on c_comma (c :: r)))
       | _ => None
       end |}.

(** The object literal [rssObject] of [generateRSS]; [now] is the value of
    [new Date()]. *)
Definition rssObject (products : list Product) (config : Config)
    (now : time rt) : RssObject :=
  {| rss_version := lit "2.0";
     rss_xmlns_media := lit "http://search.yahoo.com/mrss/";
     rss_xmlns_dc := lit "http://purl.org/dc/elements/1.1/";
     rss_channel :=
       {| ch_title := or_default (cfg_title config) default_title;
          ch_description :=
            or_default (cfg_description config) default_description;
          ch_link := or_default (cfg_link config) default_link;
          ch_language := or_default (cfg_language config) default_language;
          ch_lastBuildDate := toUTCString rt now;
          ch_generator := lit "Simple Shopify RSS Generator";
          ch_item :=
            map (fun product => createRSSItem product config) products |}
  |}.

(** [generateRSS(products, config)] *)
Definition generateRSS (products : list Product) (config : Config)
    (now : time rt) : result jsstring :=
  buildObject rt (rssObject products config now).

End Generator.

End Feed.

(** ** The upstream client and the Express handlers *)

Module Server.
Import JsString Feed.

Inductive jsvalue :=
| VNum (n : nat)
| VStr (s : jsstring).

(** An outbound [axios.get(url, { headers, params })]. *)
Record Request := {
  req_url : jsstring;
  req_headers : list (jsstring * option jsstring);
  req_params : list (string * jsvalue)
}.

(** What a handler has done with [res]: [res.status(n).json(o)] or
    [res.set('Content-Type', t); res.send(text)].  The status is 200 unless
    set; [res_content_type] is the header the source sets itself. *)
Inductive Body :=
| Json (fields : list (string * jsvalue))
| Send (text : jsstring).

Record Response := {
  res_status : nat;
  res_content_type : option jsstring;
  res_body : Body
}.

(** The handlers run in a monad that records every outbound request and
    carries a thrown error. *)
Definition M (A : Type) : Type :=
  list Request -> result A * list Request.

Definition ret {A} (a : A) : M A := fun calls => (Ok a, calls).

Definition throw {A} (message : jsstring) : M A :=
  fun calls => (Throw message, calls).

Definition bind {A B} (m : M A) (k : A -> M B) : M B :=
  fun calls =>
    match m calls with
    | (Ok a, calls') => k a calls'
    | (Throw e, calls') => (Throw e, calls')
    end.

(** [try { body } catch (error) { handler }] *)
Definition try_catch {A} (body : M A) (handler : jsstring -> M A) : M A :=
  fun calls =>
    match body calls with
    | (Ok a, calls') => (Ok a, calls')
    | (Throw e, calls') => handler e calls'
    end.

Definition lift {A} (r : result A) : M A := fun calls => (r, calls).

Notation "'let*' x := m 'in' k" := (bind m (fun x => k))
  (at level 10, x name, m at level 200, k at level 200).

Section Handlers.
Context (rt : Runtime).

(** The surroundings of one request: [process.env], the upstream server
    (what [axios.get] gives for a request: the [products] field of the
    response data, [undefined] when the field is missing, or an error) and
    the clock. *)
Record World := {
  env : gmap string jsstring;
  upstream : Request -> result (option (list Product));
  now : time rt
}.

Record SimpleShopifyAPI := {
  baseURL : jsstring;
  headers : list (jsstring * option jsstring)
}.

(** [new SimpleShopifyAPI(shopDomain, accessToken)] *)
Definition new_SimpleShopifyAPI (shopDomain accessToken : option jsstring)
  : SimpleShopifyAPI :=
  {| baseURL :=
       lit "https://" ++ template shopDomain ++ lit "/admin/api/2023-10";
     headers := [ (lit "X-Shopify-Access-Token", accessToken);
                  (lit "Content-Type", Some (lit "application/json")) ] |}.

(** [axios.get]: the one place where a request leaves the process. *)
Definition axios_get (w : World) (req : Request)
  : M (option (list Product)) :=
  fun calls => (upstream w req, calls ++ [req]).

(** [getAllProducts()]: the [catch] logs and throws the error again. *)
Definition getAllProducts (w : World) (api : SimpleShopifyAPI)
  : M (option (list Product)) :=
  try_catch
    (axios_get w
       {| req_url := baseURL api ++ lit "/products.json";
          req_headers := headers api;
          req_params := [ ("limit"%string, VNum 250);
                          ("status"%string, VStr (lit "active"));
                          ("published_status"%string,
                           VStr (lit "published")) ] |})
    (fun error => throw error).

(** Reading [products.length]: a TypeError when [products] is [undefined],
    else [products] is the array. *)
Definition array_of (products : option (list Product))
  : M (list Product) :=
  match products with
  | Some ps => ret ps
  | None => throw (undefined_length_message rt)
  end.

(** The literals of the handlers. *)
Definition config_missing_error : jsstring :=  (* 'Shopify konfigürasyonu eksik' *)
  lit "Shopify konfig" ++ [c_u_uml] ++ lit "rasyonu eksik".

Definition config_missing_message : jsstring :=
  lit "SHOPIFY_SHOP_DOMAIN ve SHOPIFY_ACCESS_TOKEN environment variables'lar"
  ++ [c_dotless_i] ++ lit "n" ++ [c_dotless_i] ++ lit " ayarlay"
  ++ [c_dotless_i] ++ lit "n".

Definition rss_failed_error : jsstring :=      (* 'RSS feed oluşturulamadı' *)
  lit "RSS feed olu" ++ [c_s_cedilla] ++ lit "turulamad" ++ [c_dotless_i].

Definition pinterest_failed_error : jsstring :=
  lit "Pinterest RSS feed olu" ++ [c_s_cedilla] ++ lit "turulamad"
  ++ [c_dotless_i].

Definition count_failed_error : jsstring :=    (* 'Ürün sayısı alınamadı' *)
  [c_U_uml] ++ lit "r" ++ [c_u_uml] ++ lit "n say" ++ [c_dotless_i]
  ++ lit "s" ++ [c_dotless_i] ++ lit " al" ++ [c_dotless_i] ++ lit "namad"
  ++ [c_dotless_i].

Definition count_message (n : nat) : jsstring := (* `${n} aktif ürün bulundu` *)
  lit (pretty n) ++ lit " aktif " ++ [c_u_uml] ++ lit "r" ++ [c_u_uml]
  ++ lit "n bulundu".

Definition rss_content_type : jsstring :=
  lit "application/rss+xml; charset=utf-8".

(** The [config] object both feed handlers pass to [generateRSS]. *)
Definition feed_config (w : World) (shopDomain : option jsstring)
  : Config :=
  {| cfg_title :=
       Some (or_default (env w !! "RSS_TITLE"%string) default_title);
     cfg_description :=
       Some (or_default (env w !! "RSS_DESCRIPTION"%string)
               default_description);
     cfg_link := Some (lit "https://" ++ template shopDomain);
     cfg_language := Some (lit "tr") |}.

(** [app.get('/rss', ...)], lines 167-204. *)
Definition get_rss (w : World) : M Response :=
  try_catch
    (let shopDomain := env w !! "SHOPIFY_SHOP_DOMAIN"%string in
     let accessToken := env w !! "SHOPIFY_ACCESS_TOKEN"%string in
     if negb (truthy shopDomain) || negb (truthy accessToken) then
         ret {| res_status := 500;
                res_content_type := None;
                res_body :=
                  Json [ ("error"%string, VStr config_missing_error);
                         ("message"%string, VStr config_missing_message) ] |}
     else
       let shopifyAPI := new_SimpleShopifyAPI shopDomain accessToken in
         let* products := getAllProducts w shopifyAPI in
         let* ps := array_of products in
         let* rssFeed :=
           lift (generateRSS rt ps (feed_config w shopDomain) (now w)) in
         ret {| res_status := 200;
                res_content_type := Some rss_content_type;
                res_body := Send rssFeed |})
    (fun error =>
       ret {| res_status := 500;
              res_content_type := None;
              res_body := Json [ ("error"%string, VStr rss_failed_error);
                                 ("message"%string, VStr error) ] |}).

(** [app.get('/rss/pinterest', ...)], lines 207-243. *)
Definition get_rss_pinterest (w : World) : M Response :=
  try_catch
    (let shopDomain := env w !! "SHOPIFY_SHOP_DOMAIN"%string in
     let accessToken := env w !! "SHOPIFY_ACCESS_TOKEN"%string in
     if negb (truthy shopDomain) || negb (truthy accessToken) then
         ret {| res_status := 500;
                res_content_type := None;
                res_body :=
                  Json [ ("error"%string, VStr config_missing_error);
                         ("message"%string, VStr config_missing_message) ] |}
     else
       let shopifyAPI := new_SimpleShopifyAPI shopDomain accessToken in
         let* products := getAllProducts w shopifyAPI in
         let* ps := array_of products in
         let* rssFeed :=
           lift (generateRSS rt ps (feed_config w shopDomain) (now w)) in
         ret {| res_status := 200;
                res_content_type := Some rss_content_type;
                res_body := Send rssFeed |})
    (fun error =>
       ret {| res_status := 500;
              res_content_type := None;
              res_body :=
                Json [ ("error"%string, VStr pinterest_failed_error);
                       ("message"%string, VStr error) ] |}).

(** [app.get('/api/products/count', ...)], lines 246-271. *)
Definition get_products_count (w : World) : M Response :=
  try_catch
    (let shopDomain := env w !! "SHOPIFY_SHOP_DOMAIN"%string in
     let accessToken := env w !! "SHOPIFY_ACCESS_TOKEN"%string in
     if negb (truthy shopDomain) || negb (truthy accessToken) then
         ret {| res_status := 500;
                res_content_type := None;
                res_body :=
                  Json [ ("error"%string, VStr config_missing_error);
                         ("message"%string, VStr config_missing_message) ] |}
     else
       let shopifyAPI := new_SimpleShopifyAPI shopDomain accessToken in
         let* products := getAllProducts w shopifyAPI in
         let* ps := array_of products in
         ret {| res_status := 200;
                res_content_type := None;
                res_body := Json [ ("count"%string, VNum (length ps));
                                   ("message"%string,
                                    VStr (count_message (length ps))) ] |})
    (fun error =>
       ret {| res_status := 500;
              res_content_type := None;
              res_body := Json [ ("error"%string, VStr count_failed_error);
                                 ("message"%string, VStr error) ] |}).

(** The three data endpoints. *)
Inductive Endpoint := Rss | RssPinterest | ProductsCount.

Definition handle_request (e : Endpoint) (w : World) : M Response :=
  match e with
  | Rss => get_rss w
  | RssPinterest => get_rss_pinterest w
  | ProductsCount => get_products_count w
  end.

End Handlers.

Arguments env {rt} _.
Arguments upstream {rt} _ _.
Arguments now {rt} _.

End Server.

(** ** Concrete values used in the examples *)

Module Samples.
Import JsString Feed Server.

(** A runtime for evaluating examples: a clock that counts seconds and a
    builder that lists the titles of the items. *)
Definition sample_runtime : Runtime :=
  {| time := nat;
     Date_of_string := fun s => length s;
     toUTCString := fun t => lit (pretty t);
     buildObject := fun o =>
       Ok (concat (map (fun i => item_title i ++ lit ";")
                       (ch_item (rss_channel o))));
     undefined_length_message :=
       lit "Cannot read properties of undefined (reading 'length')" |}.

Definition sample_product (name : string) (imgs : option (list Image))
    (tgs : option jsstring) : Product :=
  {| title := lit name;
     body_html := None;
     description := None;
     handle := lit name;
     updated_at := lit "2024-01-01T00:00:00Z";
     images := imgs;
     variants := None;
     product_type := None;
     tags := tgs |}.

Definition sample_world (e : gmap string jsstring)
    (ps : list Product) : World sample_runtime :=
  {| env := e;
     upstream := fun _ => Ok (Some ps);
     now := (0 : time sample_runtime) |}.

Definition configured_env : gmap string jsstring :=
  {[ "SHOPIFY_SHOP_DOMAIN"%string := lit "demo.myshopify.com";
     "SHOPIFY_ACCESS_TOKEN"%string := lit "token" ]}.

End Samples.

(** ** The tag rule as the specification words it *)

Module SpecReading.
Import JsString.

(** Split on commas, trim each segment, drop the empty segments; no field
    when the tags are absent or empty. *)
Definition spec_subjects (tags : option jsstring) : option (list jsstring) :=
  match tags with
  | Some (c :: r) =>
      Some (List.filter (fun seg => negb (Nat.eqb (length seg) 0))
              (map trim (split_on c_comma (c :: r))))
  | _ => None
  end.

End SpecReading.

(** ** Vocabulary of the further properties *)

Module Vocabulary.
Import JsString Feed Server.

(** A string that does not end with white space. *)
Definition ends_clean (s : jsstring) : bool :=
  match last s with
  | Some c => not_ws c
  | None => true
  end.

Definition no_comma (s : jsstring) : bool :=
  forallb (fun c => negb (c =? c_comma)%N) s.

Definition no_lt (s : jsstring) : bool :=
  forallb (fun c => negb (c =? c_lt)%N) s.

Definition no_amp (s : jsstring) : bool :=
  forallb (fun c => negb (c =? c_amp)%N) s.

(** The request that lines 27-43 build for a shop domain and a token. *)
Definition products_request (shopDomain accessToken : jsstring) : Request :=
  {| req_url :=
       lit "https://" ++ shopDomain
       ++ lit "/admin/api/2023-10/products.json";
     req_headers :=
       [ (lit "X-Shopify-Access-Token", Some accessToken);
         (lit "Content-Type", Some (lit "application/json")) ];
     req_params := [ ("limit"%string, VNum 250);
                     ("status"%string, VStr (lit "active"));
                     ("published_status"%string,
                      VStr (lit "published")) ] |}.

(** The response of a [catch] block: status 500 and a JSON body with the
    label of the handler and the message of the error. *)
Definition error_response (label message : jsstring) : Response :=
  {| res_status := 500;
     res_content_type := None;
     res_body := Json [ ("error"%string, VStr label);
                        ("message"%string, VStr message) ] |}.

(** The label each handler puts in its [catch] block. *)
Definition failure_label (e : Endpoint) : jsstring :=
  match e with
  | Rss => rss_failed_error
  | RssPinterest => pinterest_failed_error
  | ProductsCount => count_failed_error
  end.

(** The response of a feed handler that succeeds. *)
Definition feed_response (xml : jsstring) : Response :=
  {| res_status := 200;
     res_content_type := Some rss_content_type;
     res_body := Send xml |}.

End Vocabulary.

(** * Properties *)

(** ** Facts about the string primitives *)

Module JsStringFacts.
Import JsString.

Lemma starts_with_app (pat t : jsstring) : starts_with pat (pat ++ t) = true.
Proof.
  induction pat as [|p pat IH]; simpl; [done|].
  by rewrite N.eqb_refl, IH.
Qed.

Lemma starts_with_inv (pat s : jsstring) :
  starts_with pat s = true -> exists t, s = pat ++ t.
Proof.
  revert s; induction pat as [|p pat IH]; intros s H; simpl in *.
  - by exists s.
  - destruct s as [|c s]; [done|].
    apply andb_prop in H as [Hc Hs]. apply N.eqb_eq in Hc as ->.
    destruct (IH _ Hs) as [t ->]. by exists t.
Qed.

(** Passing over the rest of a match. *)
Lemma replace_from_skip (pat rep a t : jsstring) :
  replace_from pat rep (length a) (a ++ t) = replace_from pat rep 0 t.
Proof.
  induction a as [|x a IH]; simpl; [|exact IH].
  destruct t; reflexivity.
Qed.

Lemma replace_all_match (pat rep t : jsstring) :
  pat <> [] ->
  replace_all pat rep (pat ++ t) = rep ++ replace_all pat rep t.
Proof.
  intros Hpat. destruct pat as [|p pat]; [done|].
  unfold replace_all. change ((p :: pat) ++ t) with (p :: (pat ++ t)).
  cbn [replace_from].
  change (p :: pat ++ t) with ((p :: pat) ++ t).
  rewrite starts_with_app. cbn [length].
  replace (S (length pat) - 1) with (length pat) by lia.
  by rewrite replace_from_skip.
Qed.

Lemma replace_all_nomatch (pat rep : jsstring) (c : char) (r : jsstring) :
  starts_with pat (c :: r) = false ->
  replace_all pat rep (c :: r) = c :: replace_all pat rep r.
Proof. intros H. unfold replace_all. cbn [replace_from]. by rewrite H. Qed.

Lemma replace_all_nil (pat rep : jsstring) : replace_all pat rep [] = [].
Proof. reflexivity. Qed.

(** A pattern that occurs nowhere leaves the string as it is. *)
Lemma replace_all_absent (pat rep s : jsstring) :
  includes pat s = false -> replace_all pat rep s = s.
Proof.
  induction s as [|c r IH]; intros H; [done|].
  cbn [includes] in H. apply orb_false_elim in H as [H1 H2].
  rewrite replace_all_nomatch by done. by rewrite IH.
Qed.

(** No tag, nothing stripped. *)
Lemma strip_tags_absent (s : jsstring) :
  matches_tag s = false -> strip_tags s = s.
Proof.
  unfold strip_tags.
  induction s as [|c r IH]; intros H; [done|].
  cbn [matches_tag] in H. apply orb_false_elim in H as [H1 H2].
  cbn [strip_tags_from]. rewrite H1. by rewrite IH.
Qed.

(** *** White space *)

Lemma is_ws_space : is_ws c_space = true.
Proof. reflexivity. Qed.

Lemma collapse_ws_from_filter (b : bool) (s : jsstring) :
  List.filter not_ws (collapse_ws_from b s) = List.filter not_ws s.
Proof.
  revert b; induction s as [|c r IH]; intros b; [done|].
  cbn [collapse_ws_from List.filter]. unfold not_ws at 2.
  destruct (is_ws c) eqn:Hc; cbn [negb].
  - destruct b; [apply IH|].
    cbn [List.filter]. unfold not_ws at 1. rewrite is_ws_space. apply IH.
  - cbn [List.filter]. unfold not_ws at 1. rewrite Hc. cbn [negb].
    by rewrite IH.
Qed.

Lemma trim_start_suffix (s : jsstring) :
  exists l, s = l ++ trim_start s /\ forallb is_ws l = true.
Proof.
  induction s as [|c r [l [Hl Hw]]]; [by exists []|].
  cbn [trim_start]. destruct (is_ws c) eqn:Hc.
  - exists (c :: l). cbn [forallb]. rewrite Hc, Hw. split; [|done].
    simpl. by rewrite <- Hl.
  - by exists [].
Qed.

Lemma trim_end_prefix (s : jsstring) :
  exists t, s = trim_end s ++ t /\ forallb is_ws t = true.
Proof.
  induction s as [|c r [t [Ht Hw]]]; [by exists []|].
  cbn [trim_end]. destruct (trim_end r) as [|x r'] eqn:Hr.
  - destruct (is_ws c) eqn:Hc.
    + exists (c :: t). cbn [forallb]. rewrite Hc, Hw. split; [|done].
      simpl in *. by rewrite <- Ht.
    + exists t. split; [|done]. simpl in *. by rewrite <- Ht.
  - exists t. split; [|done]. simpl in *. by rewrite <- Ht.
Qed.

Lemma filter_not_ws_all (l : jsstring) :
  forallb is_ws l = true -> List.filter not_ws l = [].
Proof.
  induction l as [|c l IH]; [done|]. cbn [forallb List.filter].
  intros H. apply andb_prop in H as [Hc Hl]. unfold not_ws at 1.
  rewrite Hc. cbn [negb]. by apply IH.
Qed.

Lemma trim_filter (s : jsstring) :
  List.filter not_ws (trim s) = List.filter not_ws s.
Proof.
  unfold trim.
  destruct (trim_start_suffix s) as [l [Hl Hwl]].
  destruct (trim_end_prefix (trim_start s)) as [t [Ht Hwt]].
  transitivity (List.filter not_ws (l ++ trim_end (trim_start s) ++ t)).
  - rewrite !List.filter_app.
    rewrite (filter_not_ws_all l), (filter_not_ws_all t) by done.
    by rewrite app_nil_r.
  - by rewrite <- Ht, <- Hl.
Qed.

(** The tag test looks at the characters [<] and [>] only, and neither is
    white space. *)
Lemma has_gt_filter (s : jsstring) :
  has_gt (List.filter not_ws s) = has_gt s.
Proof.
  induction s as [|c r IH]; [done|]. cbn [List.filter has_gt].
  unfold not_ws at 1. destruct (is_ws c) eqn:Hc; cbn [negb has_gt].
  - rewrite IH. destruct (N.eqb_spec c c_gt) as [->|]; [done|done].
  - by rewrite IH.
Qed.

Lemma matches_tag_filter (s : jsstring) :
  matches_tag (List.filter not_ws s) = matches_tag s.
Proof.
  induction s as [|c r IH]; [done|]. cbn [List.filter matches_tag].
  unfold not_ws at 1. destruct (is_ws c) eqn:Hc; cbn [negb matches_tag].
  - rewrite IH. destruct (N.eqb_spec c c_lt) as [->|]; [done|done].
  - by rewrite IH, has_gt_filter.
Qed.

Lemma matches_tag_normalize (s : jsstring) :
  matches_tag (trim (collapse_ws s)) = matches_tag s.
Proof.
  rewrite <- (matches_tag_filter (trim _)), trim_filter.
  unfold collapse_ws. by rewrite collapse_ws_from_filter, matches_tag_filter.
Qed.

(** *** Occurrences of a pattern *)

Lemma includes_intro (pat a b : jsstring) : includes pat (a ++ pat ++ b) = true.
Proof.
  induction a as [|x a IH].
  - simpl. destruct (pat ++ b) eqn:E; cbn [includes]; rewrite <- E;
      by rewrite starts_with_app.
  - change ((x :: a) ++ pat ++ b) with (x :: (a ++ pat ++ b)).
    cbn [includes]. rewrite IH. apply orb_true_r.
Qed.

Lemma includes_inv (pat s : jsstring) :
  includes pat s = true -> exists a b, s = a ++ pat ++ b.
Proof.
  induction s as [|c r IH]; cbn [includes]; intros H.
  - rewrite orb_false_r in H. apply starts_with_inv in H as [t ->].
    by exists [], t.
  - apply orb_prop in H as [H|H].
    + apply starts_with_inv in H as [t ->]. by exists [], t.
    + destruct (IH H) as (a & b & ->). by exists (c :: a), b.
Qed.

(** A pattern without white space that starts the collapsed string starts
    the string itself. *)
Lemma collapse_ws_from_prefix (pat s b : jsstring) :
  forallb not_ws pat = true ->
  collapse_ws_from false s = pat ++ b -> exists b', s = pat ++ b'.
Proof.
  revert s; induction pat as [|x pat IH]; intros s Hp H.
  - by exists s.
  - cbn [forallb] in Hp. apply andb_prop in Hp as [Hx Hp].
    unfold not_ws in Hx. apply negb_true_iff in Hx.
    destruct s as [|c r]; [done|]. cbn [collapse_ws_from] in H.
    destruct (is_ws c) eqn:Hc.
    + simpl in H. injection H as <- _. by rewrite is_ws_space in Hx.
    + simpl in H. injection H as -> H.
      destruct (IH _ Hp H) as [b' ->]. by exists b'.
Qed.

Lemma collapse_ws_from_infix (pat : jsstring) :
  pat <> [] -> forallb not_ws pat = true ->
  forall (s : jsstring) (flag : bool) (a b : jsstring),
    collapse_ws_from flag s = a ++ pat ++ b ->
    exists a' b', s = a' ++ pat ++ b'.
Proof.
  intros Hne Hp. induction s as [|c r IH]; intros flag a b H.
  - destruct a, pat; done.
  - cbn [collapse_ws_from] in H. destruct (is_ws c) eqn:Hc.
    + destruct flag.
      * destruct (IH _ _ _ H) as (a' & b' & ->). by exists (c :: a'), b'.
      * destruct a as [|y a].
        -- destruct pat as [|x pat]; [done|]. simpl in H. injection H as <- _.
           cbn [forallb] in Hp. apply andb_prop in Hp as [Hx _].
           unfold not_ws in Hx. by rewrite is_ws_space in Hx.
        -- simpl in H. injection H as _ H.
           destruct (IH _ _ _ H) as (a' & b' & ->). by exists (c :: a'), b'.
    + destruct a as [|y a].
      * assert (H' : collapse_ws_from false (c :: r) = pat ++ b)
          by (cbn [collapse_ws_from]; rewrite Hc; exact H).
        destruct (collapse_ws_from_prefix _ _ _ Hp H') as [b' Hb'].
        exists [], b'. exact Hb'.
      * simpl in H. injection H as _ H.
        destruct (IH _ _ _ H) as (a' & b' & ->). by exists (c :: a'), b'.
Qed.

(** [trim] and the collapse of white space create no occurrence of a pattern
    that has no white space in it. *)
Lemma includes_normalize (pat s : jsstring) :
  pat <> [] -> forallb not_ws pat = true ->
  includes pat s = false -> includes pat (trim (collapse_ws s)) = false.
Proof.
  intros Hne Hp Hs.
  destruct (includes pat (trim (collapse_ws s))) eqn:E; [|done].
  apply includes_inv in E as (a & b & E).
  unfold trim in E.
  destruct (trim_start_suffix (collapse_ws s)) as [l [Hl _]].
  destruct (trim_end_prefix (trim_start (collapse_ws s))) as [t [Ht _]].
  rewrite Ht, E in Hl. unfold collapse_ws in Hl.
  assert (Hl' : collapse_ws_from false s = (l ++ a) ++ pat ++ (b ++ t))
    by (rewrite Hl; by rewrite <- !app_assoc).
  destruct (collapse_ws_from_infix pat Hne Hp _ _ _ _ Hl') as (a' & b' & ->).
  by rewrite includes_intro in Hs.
Qed.

(** *** Normal forms of the white space steps *)

Lemma collapsed_weaken (s : jsstring) :
  collapsed true s = true -> collapsed false s = true.
Proof.
  destruct s as [|c r]; [done|]. cbn [collapsed].
  destruct (is_ws c); [|done]. rewrite andb_false_r. done.
Qed.

Lemma collapsed_collapse_ws_from (b : bool) (s : jsstring) :
  collapsed b (collapse_ws_from b s) = true.
Proof.
  revert b; induction s as [|c r IH]; intros b; [done|].
  cbn [collapse_ws_from]. destruct (is_ws c) eqn:Hc.
  - destruct b; [apply IH|].
    cbn [collapsed]. rewrite is_ws_space, N.eqb_refl. apply IH.
  - cbn [collapsed]. rewrite Hc. apply IH.
Qed.

Lemma collapse_ws_from_fixed (b : bool) (s : jsstring) :
  collapsed b s = true -> collapse_ws_from b s = s.
Proof.
  revert b; induction s as [|c r IH]; intros b H; [done|].
  cbn [collapsed] in H. cbn [collapse_ws_from].
  destruct (is_ws c) eqn:Hc.
  - apply andb_prop in H as [H Hr]. apply andb_prop in H as [Hsp Hb].
    apply N.eqb_eq in Hsp as ->. apply negb_true_iff in Hb as ->.
    by rewrite IH.
  - by rewrite IH.
Qed.

Lemma collapsed_tail (b : bool) (c : char) (r : jsstring) :
  collapsed b (c :: r) = true -> collapsed false r = true.
Proof.
  cbn [collapsed]. destruct (is_ws c).
  - intros H. apply andb_prop in H as [_ H]. by apply collapsed_weaken.
  - done.
Qed.

Lemma collapsed_trim_start (s : jsstring) :
  collapsed false s = true -> collapsed false (trim_start s) = true.
Proof.
  induction s as [|c r IH]; [done|]. intros H. cbn [trim_start].
  destruct (is_ws c) eqn:Hc; [|done].
  apply IH. by apply collapsed_tail in H.
Qed.

Lemma collapsed_trim_end (b : bool) (s : jsstring) :
  collapsed b s = true -> collapsed b (trim_end s) = true.
Proof.
  revert b; induction s as [|c r IH]; intros b H; [done|].
  cbn [trim_end]. cbn [collapsed] in H.
  destruct (trim_end r) as [|x r'] eqn:Hr.
  - destruct (is_ws c) eqn:Hc; [done|]. cbn [collapsed]. by rewrite Hc.
  - cbn [collapsed]. destruct (is_ws c) eqn:Hc.
    + apply andb_prop in H as [H1 H2]. rewrite H1. by apply IH.
    + by apply IH.
Qed.

Lemma trim_end_idem (s : jsstring) : trim_end (trim_end s) = trim_end s.
Proof.
  induction s as [|c r IH]; [done|]. cbn [trim_end].
  destruct (trim_end r) as [|x r'] eqn:Hr.
  - destruct (is_ws c) eqn:Hc; [done|]. cbn [trim_end]. by rewrite Hc.
  - cbn [trim_end] in *. by rewrite IH.
Qed.

Lemma starts_clean_trim_start (s : jsstring) :
  starts_clean (trim_start s) = true.
Proof.
  induction s as [|c r IH]; [done|]. cbn [trim_start].
  destruct (is_ws c) eqn:Hc; [done|]. cbn [starts_clean]. unfold not_ws.
  by rewrite Hc.
Qed.

Lemma starts_clean_trim_end (s : jsstring) :
  starts_clean s = true -> starts_clean (trim_end s) = true.
Proof.
  destruct s as [|c r]; [done|]. cbn [starts_clean trim_end]. intros Hc.
  destruct (trim_end r); [|done].
  unfold not_ws in Hc. apply negb_true_iff in Hc. rewrite Hc.
  cbn [starts_clean]. unfold not_ws. by rewrite Hc.
Qed.

Lemma trim_start_fixed (s : jsstring) :
  starts_clean s = true -> trim_start s = s.
Proof.
  destruct s as [|c r]; [done|]. cbn [starts_clean trim_start].
  unfold not_ws. intros Hc. apply negb_true_iff in Hc. by rewrite Hc.
Qed.

Lemma trim_idem (s : jsstring) : trim (trim s) = trim s.
Proof.
  unfold trim.
  rewrite (trim_start_fixed (trim_end (trim_start s))).
  - apply trim_end_idem.
  - apply starts_clean_trim_end, starts_clean_trim_start.
Qed.

(** Collapsing and trimming twice is the same as once. *)
Lemma normalize_idem (s : jsstring) :
  trim (collapse_ws (trim (collapse_ws s))) = trim (collapse_ws s).
Proof.
  unfold collapse_ws at 1.
  rewrite collapse_ws_from_fixed; [apply trim_idem|].
  unfold trim. apply collapsed_trim_end, collapsed_trim_start.
  apply collapsed_collapse_ws_from.
Qed.

(** *** Lengths *)

Lemma length_collapse_ws_from (b : bool) (s : jsstring) :
  length (collapse_ws_from b s) <= length s.
Proof.
  revert b; induction s as [|c r IH]; intros b; [done|].
  cbn [collapse_ws_from]. destruct (is_ws c); [destruct b|]; simpl.
  - pose proof (IH true). lia.
  - pose proof (IH true). lia.
  - pose proof (IH false). lia.
Qed.

Lemma length_trim (s : jsstring) : length (trim s) <= length s.
Proof.
  unfold trim.
  destruct (trim_start_suffix s) as [l [Hl _]].
  destruct (trim_end_prefix (trim_start s)) as [t [Ht _]].
  apply (f_equal length) in Hl, Ht. rewrite !length_app in *. lia.
Qed.

Lemma length_normalize (s : jsstring) :
  length (trim (collapse_ws s)) <= length s.
Proof.
  pose proof (length_trim (collapse_ws s)).
  pose proof (length_collapse_ws_from false s). unfold collapse_ws in *. lia.
Qed.

End JsStringFacts.

(** ** The feed builder *)

Module FeedFacts.
Import JsString Feed JsStringFacts.

Lemma string_eqb_eq (a b : jsstring) : string_eqb a b = true <-> a = b.
Proof.
  revert b; induction a as [|x a IH]; intros [|y b]; simpl; try done.
  rewrite andb_true_iff, N.eqb_eq, IH. split.
  - by intros [-> ->].
  - intros H. by injection H.
Qed.

(** *** Entities and the text around them *)

Lemma entity_tail_inv (rest : jsstring) :
  entity_tail rest = true ->
  exists body, rest = body ++ [c_semi] /\ Forall plain body.
Proof.
  induction rest as [|c r IH]; [done|]. cbn [entity_tail].
  destruct (N.eqb_spec c c_semi) as [->|Hsemi].
  - destruct r; [|done]. intros _. by exists [].
  - intros H. apply andb_prop in H as [Hamp Hr].
    destruct (IH Hr) as (body & -> & Hbody).
    exists (c :: body). split; [done|]. constructor; [|done].
    split; [|done]. apply negb_true_iff in Hamp. by apply N.eqb_neq.
Qed.

Lemma entity_shaped_inv (e : jsstring) :
  entity_shaped e = true ->
  exists body, e = c_amp :: body ++ [c_semi] /\ Forall plain body.
Proof.
  destruct e as [|c rest]; [done|]. cbn [entity_shaped]. intros H.
  apply andb_prop in H as [Hc Hr]. apply N.eqb_eq in Hc as ->.
  destruct (entity_tail_inv _ Hr) as (body & -> & Hb). by exists body.
Qed.

(** The first [x] of a string splits it in one way only. *)
Lemma split_at_first (x : char) (a c b d : jsstring) :
  Forall (fun y => y <> x) a -> Forall (fun y => y <> x) c ->
  a ++ x :: b = c ++ x :: d -> a = c /\ b = d.
Proof.
  revert c; induction a as [|y a IH]; intros c Ha Hc H.
  - destruct c as [|z c]; simpl in H.
    + by injection H.
    + injection H as <- _. by inversion Hc.
  - destruct c as [|z c]; simpl in H.
    + injection H as -> _. by inversion Ha.
    + injection H as <- H. inversion Ha; inversion Hc; subst.
      destruct (IH c) as [-> ->]; done.
Qed.

(** A string without [x] that starts a text in which an [x] stands after
    [pre] ends inside [pre]. *)
Lemma prefix_before (x : char) (u t pre rest : jsstring) :
  Forall (fun y => y <> x) u ->
  u ++ t = pre ++ x :: rest -> exists pre', pre = u ++ pre'.
Proof.
  revert pre; induction u as [|y u IH]; intros pre Hu H.
  - by exists pre.
  - inversion Hu; subst. destruct pre as [|z pre]; simpl in H.
    + by injection H as -> _.
    + injection H as <- H. destruct (IH _ ltac:(done) H) as [pre' ->].
      by exists pre'.
Qed.

Lemma plain_tail (body : jsstring) :
  Forall plain body -> Forall (fun y => y <> c_amp) (body ++ [c_semi]).
Proof.
  intros H. apply Forall_app. split.
  - eapply Forall_impl; [exact H|]. by intros y [? ?].
  - by repeat constructor.
Qed.

Lemma plain_body (body : jsstring) :
  Forall plain body -> Forall (fun y => y <> c_semi) body.
Proof. intros H. eapply Forall_impl; [exact H|]. by intros y [? ?]. Qed.

(** Cutting a text before a character that no match can pass over: a
    character that the pattern holds at its first position at most. *)
Section Cut.
Context (pat rep : jsstring) (x : char).
Context (Hpat : pat <> []) (Htail : Forall (fun y => y <> x) (tail pat)).

Lemma match_before (pre rest : jsstring) :
  pre <> [] -> starts_with pat (pre ++ x :: rest) = true ->
  exists pre', pre = pat ++ pre'.
Proof.
  intros Hpre E. apply starts_with_inv in E as [t E].
  destruct pat as [|p pat']; [done|]. destruct pre as [|c pre]; [done|].
  simpl in E, Htail. injection E as Hc E. subst c.
  symmetry in E. apply prefix_before in E as [pre' ->]; [|done].
  by exists pre'.
Qed.

Lemma replace_all_cut (pre rest : jsstring) :
  replace_all pat rep (pre ++ x :: rest)
  = replace_all pat rep pre ++ replace_all pat rep (x :: rest).
Proof.
  remember (length pre) as n eqn:Hn. revert pre Hn.
  induction n as [n IH] using lt_wf_ind. intros pre Hn.
  destruct pre as [|c r]; [done|].
  destruct (starts_with pat ((c :: r) ++ x :: rest)) eqn:E.
  - destruct (match_before (c :: r) rest ltac:(done) E) as [pre' Hpre'].
    rewrite Hpre', <- !app_assoc. rewrite !replace_all_match by done.
    rewrite (IH (length pre')); [by rewrite <- app_assoc| |done].
    subst n. rewrite Hpre', length_app. destruct pat; [done|]. simpl. lia.
  - assert (Hs : starts_with pat (c :: r) = false).
    { destruct (starts_with pat (c :: r)) eqn:E'; [|done].
      apply starts_with_inv in E' as [t E']. rewrite E' in E.
      by rewrite <- app_assoc, starts_with_app in E. }
    change ((c :: r) ++ x :: rest) with (c :: (r ++ x :: rest)) in E |- *.
    rewrite !replace_all_nomatch by done.
    rewrite (IH (length r)); [done| |done]. subst n. simpl. lia.
Qed.

End Cut.

(** A character that is not in the pattern stays, and the text on its two
    sides is rewritten as if each stood alone. *)
Lemma replace_all_char_frame (pat rep : jsstring) (x : char)
    (pre post : jsstring) :
  pat <> [] -> forallb (fun y => negb (y =? x)%N) pat = true ->
  replace_all pat rep (pre ++ x :: post)
  = replace_all pat rep pre ++ x :: replace_all pat rep post.
Proof.
  intros Hne Hx. destruct pat as [|p pat']; [done|].
  cbn [forallb] in Hx. apply andb_prop in Hx as [Hp Hx].
  rewrite replace_all_cut; [|done|].
  - rewrite (replace_all_nomatch _ _ x); [done|]. cbn [starts_with].
    apply negb_true_iff in Hp. by rewrite Hp.
  - cbn [tail]. apply Forall_forall. intros y Hy.
    rewrite forallb_forall in Hx. apply list_elem_of_In in Hy.
    specialize (Hx y Hy). apply negb_true_iff in Hx. by apply N.eqb_neq.
Qed.

Section Frame.
Context (pat rep : jsstring).
Context (Hpat : entity_shaped pat = true).

Lemma pat_not_nil : pat <> [].
Proof. by destruct pat. Qed.

Lemma pat_tail_plain : Forall (fun y => y <> c_amp) (tail pat).
Proof.
  destruct (entity_shaped_inv _ Hpat) as (pb & -> & Hpb).
  by apply plain_tail.
Qed.

(** Text without [&] has no match in it. *)
Lemma replace_all_plain (x y : jsstring) :
  Forall (fun c => c <> c_amp) x ->
  replace_all pat rep (x ++ y) = x ++ replace_all pat rep y.
Proof.
  induction x as [|c x IH]; intros Hx; [done|]. inversion Hx; subst.
  change ((c :: x) ++ y) with (c :: (x ++ y)).
  rewrite replace_all_nomatch; [by rewrite IH|].
  destruct pat as [|p pat']; [done|]. cbn [entity_shaped] in Hpat.
  apply andb_prop in Hpat as [Hp _]. apply N.eqb_eq in Hp as ->.
  cbn [starts_with]. by destruct (N.eqb_spec c_amp c) as [<-|].
Qed.

Lemma starts_with_other_entity (e post : jsstring) :
  entity_shaped e = true -> pat <> e -> starts_with pat (e ++ post) = false.
Proof.
  intros He Hne. destruct (starts_with pat (e ++ post)) eqn:E; [|done].
  apply starts_with_inv in E as [t E].
  destruct (entity_shaped_inv _ Hpat) as (pb & Hp & Hpb).
  destruct (entity_shaped_inv _ He) as (eb & Heq & Heb).
  rewrite Hp, Heq in E. simpl in E. injection E as E.
  rewrite <- !app_assoc in E. simpl in E.
  apply split_at_first in E as [E _]; try by apply plain_body.
  subst. done.
Qed.

(** An entity other than the pattern is left in place, and the text before
    and after it is rewritten as if it stood alone. *)
Lemma replace_all_entity_frame (e pre post : jsstring) :
  entity_shaped e = true -> pat <> e ->
  replace_all pat rep (pre ++ e ++ post)
  = replace_all pat rep pre ++ e ++ replace_all pat rep post.
Proof.
  intros He Hne. destruct (entity_shaped_inv _ He) as (eb & Heq & Heb).
  pose proof (starts_with_other_entity e post He Hne) as Hs.
  rewrite Heq in Hs |- *.
  change ((c_amp :: eb ++ [c_semi]) ++ post)
    with (c_amp :: (eb ++ [c_semi]) ++ post) in Hs |- *.
  rewrite replace_all_cut by (apply pat_not_nil || apply pat_tail_plain).
  rewrite replace_all_nomatch by done.
  rewrite replace_all_plain by (by apply plain_tail). done.
Qed.

(** The pattern itself is replaced wherever it stands. *)
Lemma replace_all_match_frame (pre post : jsstring) :
  replace_all pat rep (pre ++ pat ++ post)
  = replace_all pat rep pre ++ rep ++ replace_all pat rep post.
Proof.
  destruct (entity_shaped_inv _ Hpat) as (pb & Hp & Hpb).
  rewrite Hp at 2.
  change ((c_amp :: pb ++ [c_semi]) ++ post)
    with (c_amp :: (pb ++ [c_semi]) ++ post).
  rewrite replace_all_cut by (apply pat_not_nil || apply pat_tail_plain).
  change (c_amp :: (pb ++ [c_semi]) ++ post)
    with ((c_amp :: pb ++ [c_semi]) ++ post).
  rewrite <- Hp. by rewrite replace_all_match by apply pat_not_nil.
Qed.

End Frame.



(** Each entity but [&amp;] is decoded wherever it stands, whatever is
    around it. *)
Lemma decode_entities_in_context (pat rep pre post : jsstring) :
  In (pat, rep) entity_table -> pat <> amp_entity ->
  decode_entities (pre ++ pat ++ post)
  = decode_entities pre ++ rep ++ decode_entities post.
Proof.
  intros Hin Hne. unfold decode_entities.
  cbn [In entity_table] in Hin.
  destruct Hin as [H|[H|[H|[H|[H|[H|[]]]]]]]; injection H as <- <-;
    try done.
  - rewrite (replace_all_entity_frame amp_entity _ eq_refl lt_entity)
      by done.
    rewrite (replace_all_match_frame lt_entity _ eq_refl).
    cbn [app].
    by rewrite !(replace_all_char_frame _ _ c_lt).
  - rewrite (replace_all_entity_frame amp_entity _ eq_refl gt_entity)
      by done.
    rewrite (replace_all_entity_frame lt_entity _ eq_refl gt_entity)
      by done.
    rewrite (replace_all_match_frame gt_entity _ eq_refl).
    cbn [app].
    by rewrite !(replace_all_char_frame _ _ c_gt).
  - rewrite (replace_all_entity_frame amp_entity _ eq_refl quot_entity)
      by done.
    rewrite (replace_all_entity_frame lt_entity _ eq_refl quot_entity)
      by done.
    rewrite (replace_all_entity_frame gt_entity _ eq_refl quot_entity)
      by done.
    rewrite (replace_all_match_frame quot_entity _ eq_refl).
    cbn [app].
    by rewrite !(replace_all_char_frame _ _ 34%N).
  - rewrite (replace_all_entity_frame amp_entity _ eq_refl apos_entity)
      by done.
    rewrite (replace_all_entity_frame lt_entity _ eq_refl apos_entity)
      by done.
    rewrite (replace_all_entity_frame gt_entity _ eq_refl apos_entity)
      by done.
    rewrite (replace_all_entity_frame quot_entity _ eq_refl apos_entity)
      by done.
    rewrite (replace_all_match_frame apos_entity _ eq_refl).
    cbn [app].
    by rewrite !(replace_all_char_frame _ _ 39%N).
  - rewrite (replace_all_entity_frame amp_entity _ eq_refl nbsp_entity)
      by done.
    rewrite (replace_all_entity_frame lt_entity _ eq_refl nbsp_entity)
      by done.
    rewrite (replace_all_entity_frame gt_entity _ eq_refl nbsp_entity)
      by done.
    rewrite (replace_all_entity_frame quot_entity _ eq_refl nbsp_entity)
      by done.
    rewrite (replace_all_entity_frame apos_entity _ eq_refl nbsp_entity)
      by done.
    by rewrite (replace_all_match_frame nbsp_entity _ eq_refl).
Qed.

Lemma decode_entities_plain (s : jsstring) :
  Forall (fun c => c <> c_amp) s -> decode_entities s = s.
Proof.
  intros H. unfold decode_entities.
  assert (Hr : forall pat rep, entity_shaped pat = true ->
                 replace_all pat rep s = s).
  { intros pat rep Hp.
    rewrite <- (app_nil_r s) at 1. rewrite replace_all_plain by done.
    rewrite replace_all_nil. apply app_nil_r. }
  by rewrite !Hr.
Qed.

(** *** Clean text *)

Lemma has_entity_false (s : jsstring) :
  has_entity s = false ->
  includes amp_entity s = false /\ includes lt_entity s = false /\
  includes gt_entity s = false /\ includes quot_entity s = false /\
  includes apos_entity s = false /\ includes nbsp_entity s = false.
Proof.
  unfold has_entity, entity_table. cbn [existsb fst]. intros H.
  repeat (apply orb_false_elim in H; destruct H as [? H]). by repeat split.
Qed.

Lemma decode_entities_absent (s : jsstring) :
  has_entity s = false -> decode_entities s = s.
Proof.
  intros H. apply has_entity_false in H as (H1 & H2 & H3 & H4 & H5 & H6).
  unfold decode_entities.
  rewrite (replace_all_absent amp_entity _ s) by done.
  rewrite (replace_all_absent lt_entity _ s) by done.
  rewrite (replace_all_absent gt_entity _ s) by done.
  rewrite (replace_all_absent quot_entity _ s) by done.
  rewrite (replace_all_absent apos_entity _ s) by done.
  by rewrite (replace_all_absent nbsp_entity _ s).
Qed.

Lemma has_entity_normalize (s : jsstring) :
  has_entity s = false -> has_entity (trim (collapse_ws s)) = false.
Proof.
  intros H. apply has_entity_false in H as (H1 & H2 & H3 & H4 & H5 & H6).
  unfold has_entity, entity_table. cbn [existsb fst].
  rewrite (includes_normalize amp_entity), (includes_normalize lt_entity),
    (includes_normalize gt_entity), (includes_normalize quot_entity),
    (includes_normalize apos_entity), (includes_normalize nbsp_entity);
    done.
Qed.

(** On text without tags and entities only the white space steps act. *)
Lemma cleanDescription_clean (s : jsstring) :
  matches_tag s = false -> has_entity s = false -> length s <= 500 ->
  cleanDescription (Some s) = trim (collapse_ws s).
Proof.
  intros Ht He Hl. destruct s as [|c r]; [done|].
  unfold cleanDescription, sanitize.
  rewrite strip_tags_absent, decode_entities_absent by done.
  pose proof (length_normalize (c :: r)) as Hn.
  destruct (Nat.ltb_spec 500 (length (trim (collapse_ws (c :: r)))));
    [lia|done].
Qed.

(** *** The claims about [cleanDescription] *)

(** C3. The result of [cleanDescription] has at most 500 characters, and
    when the sanitized text (tags stripped, entities decoded, white space
    collapsed and trimmed) has more than 500, the result is its first 497
    characters followed by the three characters of the ellipsis, 500 in
    all. *)
Theorem cleanDescription_length (html : option jsstring) :
  length (cleanDescription html) <= 500 /\
  (forall h, html = Some h -> 500 < length (sanitize h) ->
     cleanDescription html = take 497 (sanitize h) ++ ellipsis /\
     length (cleanDescription html) = 500).
Proof.
  split.
  - destruct html as [[|c r]|]; cbn [cleanDescription length]; try lia.
    destruct (Nat.ltb_spec 500 (length (sanitize (c :: r)))); [|lia].
    rewrite length_app, length_take. change (length ellipsis) with 3. lia.
  - intros h -> Hlen. destruct h as [|c r]; [simpl in Hlen; lia|].
    cbn [cleanDescription].
    destruct (Nat.ltb_spec 500 (length (sanitize (c :: r)))); [|lia].
    split; [done|]. rewrite length_app, length_take.
    change (length ellipsis) with 3. lia.
Qed.

Lemma cleanDescription_length_witness :
  500 < length (sanitize (repeat 97%N 501)) /\
  cleanDescription (Some (repeat 97%N 501))
  = take 497 (sanitize (repeat 97%N 501)) ++ ellipsis /\
  length (cleanDescription (Some (repeat 97%N 501))) = 500.
Proof.
  assert (H : 500 < length (sanitize (repeat 97%N 501)))
    by (vm_compute; lia).
  split; [exact H|].
  exact (proj2 (cleanDescription_length (Some (repeat 97%N 501)))
           (repeat 97%N 501) eq_refl H).
Defined.

(** *** An [&] left by the first replacement *)








(** C5. On text without a tag, without any of the six entities and of at
    most 500 characters, [cleanDescription] applied twice gives what it
    gives applied once. *)
Theorem cleanDescription_idempotent (s : jsstring) :
  matches_tag s = false -> has_entity s = false -> length s <= 500 ->
  cleanDescription (Some (cleanDescription (Some s)))
  = cleanDescription (Some s).
Proof.
  intros Ht He Hl. rewrite (cleanDescription_clean s) by done.
  rewrite cleanDescription_clean.
  - apply normalize_idem.
  - by rewrite matches_tag_normalize.
  - by apply has_entity_normalize.
  - pose proof (length_normalize s). lia.
Qed.

Lemma cleanDescription_idempotent_witness :
  cleanDescription
    (Some (cleanDescription (Some (lit "  Hand-made   mug, 2 > 1  "))))
  = cleanDescription (Some (lit "  Hand-made   mug, 2 > 1  ")).
Proof.
  apply cleanDescription_idempotent;
    [reflexivity | reflexivity | vm_compute; lia].
Defined.

(** The replacements run one after the other, [&amp;] first, so the [&] it
    leaves can complete an entity that a later replacement decodes. *)
Example decode_entities_twice :
  decode_entities (lit "&amp;lt;") = lit "<".
Proof. reflexivity. Qed.

(** *** The channel *)

Example default_title_code_units :
  default_title
  = [77; 97; 287; 97; 122; 97; 32; 220; 114; 252; 110; 108; 101; 114;
     105]%N.
Proof. reflexivity. Qed.

Example default_description_code_units :
  default_description
  = [77; 97; 287; 97; 122; 97; 109; 305; 122; 100; 97; 107; 105; 32; 116;
     252; 109; 32; 252; 114; 252; 110; 108; 101; 114]%N.
Proof. reflexivity. Qed.

Lemma or_default_falsy (o : option jsstring) (d : jsstring) :
  truthy o = false -> or_default o d = d.
Proof. by destruct o as [[|c r]|]. Qed.

(** C1, as the code has it.  When a field of the configuration is empty or
    absent, the channel takes the literal of the source: the title
    'Mağaza Ürünleri', the description 'Mağazamızdaki tüm ürünler', the link
    'https://shop.myshopify.com' and the language 'tr'. *)
Theorem channel_defaults (rt : Runtime) (products : list Product)
    (config : Config) (now : time rt) :
  let ch := rss_channel (rssObject rt products config now) in
  (truthy (cfg_title config) = false -> ch_title ch = default_title) /\
  (truthy (cfg_description config) = false ->
   ch_description ch = default_description) /\
  (truthy (cfg_link config) = false ->
   ch_link ch = lit "https://shop.myshopify.com") /\
  (truthy (cfg_language config) = false -> ch_language ch = lit "tr").
Proof.
  cbn [rssObject rss_channel ch_title ch_description ch_link ch_language].
  repeat split; intros H; by rewrite or_default_falsy.
Qed.

Lemma channel_defaults_witness :
  let ch :=
    rss_channel (rssObject Samples.sample_runtime [] empty_config
                   (0 : time Samples.sample_runtime)) in
  ch_title ch = default_title /\
  ch_description ch = default_description /\
  ch_link ch = lit "https://shop.myshopify.com" /\
  ch_language ch = lit "tr".
Proof.
  pose proof (channel_defaults Samples.sample_runtime [] empty_config
                (0 : time Samples.sample_runtime)) as (H1 & H2 & H3 & H4).
  split; [exact (H1 eq_refl)|]. split; [exact (H2 eq_refl)|].
  split; [exact (H3 eq_refl)|exact (H4 eq_refl)].
Defined.

(** C1 as worded fails: with an empty configuration the channel title is
    not "Store Products" and the description is not
    "All products in our store". *)
Lemma channel_defaults_not_english :
  let ch :=
    rss_channel (rssObject Samples.sample_runtime [] empty_config
                   (0 : time Samples.sample_runtime)) in
  truthy (cfg_title empty_config) = false /\
  truthy (cfg_description empty_config) = false /\
  ch_title ch <> lit "Store Products" /\
  ch_description ch <> lit "All products in our store".
Proof. repeat split; by vm_compute. Qed.

(** C2. The channel has one item for each product, in the order of the
    products: the item at each index is the item made from the product at
    that index. *)
Theorem generateRSS_one_item_per_product (rt : Runtime)
    (products : list Product) (config : Config) (now : time rt) :
  let items := ch_item (rss_channel (rssObject rt products config now)) in
  generateRSS rt products config now
  = buildObject rt (rssObject rt products config now) /\
  length items = length products /\
  (forall i : nat,
     items !! i = (fun p => createRSSItem rt p config) <$> products !! i) /\
  map item_title items = map title products.
Proof.
  cbn [rssObject rss_channel ch_item]. split; [done|].
  split; [apply length_map|]. split.
  - intros i. apply list_lookup_fmap.
  - rewrite map_map. done.
Qed.

(** *** One item *)

(** C7. A product without images gives an item without media content and
    without a thumbnail; a product with images gives one media content
    entry for each image, in order, with the URL of the image, the type
    "image/jpeg" and the medium "image", and a thumbnail with the URL of
    the first image. *)
Theorem media_fields (rt : Runtime) (product : Product) (config : Config) :
  let item := createRSSItem rt product config in
  (images product = None \/ images product = Some [] ->
   item_media_content item = None /\ item_media_thumbnail item = None) /\
  (forall imgs first,
     images product = Some imgs -> head imgs = Some first ->
     exists entries,
       item_media_content item = Some entries /\
       length entries = length imgs /\
       (forall i image, imgs !! i = Some image ->
          entries !! i = Some {| mc_url := src image;
                                 mc_type := lit "image/jpeg";
                                 mc_medium := lit "image" |}) /\
       item_media_thumbnail item = Some {| mt_url := src first |}).
Proof.
  cbn [createRSSItem item_media_content item_media_thumbnail]. split.
  - by intros [-> | ->].
  - intros imgs first -> Hfirst. destruct imgs as [|image rest]; [done|].
    injection Hfirst as <-. eexists. split; [reflexivity|].
    split; [apply length_map|]. split; [|done].
    intros i img Hi.
    change (map ?f ?l) with (f <$> l).
    by rewrite list_lookup_fmap, Hi.
Qed.

Lemma media_fields_witness :
  let two := [ {| src := lit "https://cdn/a.png" |};
               {| src := lit "https://cdn/b.jpg" |} ] in
  let item := createRSSItem Samples.sample_runtime
                (Samples.sample_product "mug" (Some two) None)
                empty_config in
  let bare := createRSSItem Samples.sample_runtime
                (Samples.sample_product "cup" (Some []) None)
                empty_config in
  (item_media_content bare = None /\ item_media_thumbnail bare = None) /\
  exists entries,
    item_media_content item = Some entries /\
    length entries = 2 /\
    (forall i image, two !! i = Some image ->
       entries !! i = Some {| mc_url := src image;
                              mc_type := lit "image/jpeg";
                              mc_medium := lit "image" |}) /\
    item_media_thumbnail item
    = Some {| mt_url := lit "https://cdn/a.png" |}.
Proof.
  intros two item bare. split.
  - exact (proj1 (media_fields Samples.sample_runtime
                    (Samples.sample_product "cup" (Some []) None)
                    empty_config) (or_intror eq_refl)).
  - exact (proj2 (media_fields Samples.sample_runtime
                    (Samples.sample_product "mug" (Some two) None)
                    empty_config) two _ eq_refl eq_refl).
Defined.

(** *** Tags *)

Lemma split_on_app (sep : char) (a b : jsstring) :
  split_on sep (a ++ sep :: b) = split_on sep a ++ split_on sep b.
Proof.
  induction a as [|c a IH].
  - simpl. by rewrite N.eqb_refl.
  - change ((c :: a) ++ sep :: b) with (c :: (a ++ sep :: b)).
    cbn [split_on]. rewrite IH. destruct (c =? sep)%N; [done|].
    destruct (split_on sep a) as [|h t] eqn:E; [|done].
    by destruct a as [|x a]; simpl in E;
      [|destruct (x =? sep)%N; [|destruct (split_on sep a)]].
Qed.

Lemma length_split_on (sep : char) (s : jsstring) :
  length (split_on sep s)
  = S (length (List.filter (fun c => (c =? sep)%N) s)).
Proof.
  induction s as [|c r IH]; [done|]. cbn [split_on List.filter].
  destruct (c =? sep)%N.
  - simpl. by rewrite IH.
  - destruct (split_on sep r); simpl in *; [done|lia].
Qed.

Lemma subject_of_tags (rt : Runtime) (product : Product) (config : Config)
    (t : jsstring) :
  tags product = Some t -> t <> [] ->
  item_dc_subject (createRSSItem rt product config)
  = Some (map trim (split_on c_comma t)).
Proof.
  intros Ht Hne. cbn [createRSSItem item_dc_subject]. rewrite Ht.
  by destruct t.
Qed.

(** C8, as the code has it.  The tags "a, b ,c" give the subjects "a", "b",
    "c"; in general a tags string that is not empty is split on commas and
    each segment is trimmed, in split order, one subject for every segment
    (one more than there are commas), and absent or empty tags give no
    subject field. *)
Theorem subjects_split_and_trim (rt : Runtime) (product : Product)
    (config : Config) :
  let item := createRSSItem rt product config in
  (tags product = Some (lit "a, b ,c") ->
   item_dc_subject item = Some [lit "a"; lit "b"; lit "c"]) /\
  (forall t, tags product = Some t -> t <> [] ->
     exists subjects,
       item_dc_subject item = Some subjects /\
       subjects = map trim (split_on c_comma t) /\
       length subjects
       = S (length (List.filter (fun c => (c =? c_comma)%N) t))) /\
  (tags product = None \/ tags product = Some [] ->
   item_dc_subject item = None).
Proof.
  cbn zeta. split; [|split].
  - intros Ht. by rewrite (subject_of_tags _ _ _ _ Ht).
  - intros t Ht Hne. eexists. split; [by apply subject_of_tags|].
    split; [done|]. by rewrite length_map, length_split_on.
  - cbn [createRSSItem item_dc_subject]. by intros [-> | ->].
Qed.

Lemma subjects_split_and_trim_witness :
  let item := createRSSItem Samples.sample_runtime
                (Samples.sample_product "mug" None (Some (lit "a, b ,c")))
                empty_config in
  item_dc_subject item = Some [lit "a"; lit "b"; lit "c"].
Proof.
  exact (proj1 (subjects_split_and_trim Samples.sample_runtime
                  (Samples.sample_product "mug" None (Some (lit "a, b ,c")))
                  empty_config) eq_refl).
Defined.

(** C8 as worded fails: the empty segment after a trailing comma is not
    dropped. *)
Lemma subjects_trailing_comma_not_dropped :
  let item := createRSSItem Samples.sample_runtime
                (Samples.sample_product "mug" None (Some (lit "a,b,")))
                empty_config in
  SpecReading.spec_subjects (Some (lit "a,b,")) = Some [lit "a"; lit "b"] /\
  item_dc_subject item = Some [lit "a"; lit "b"; []] /\
  item_dc_subject item <> SpecReading.spec_subjects (Some (lit "a,b,")).
Proof. repeat split; by vm_compute. Qed.

(** C10. Empty segments stay in the subject list as empty strings: "a,b,"
    gives "a", "b", "" and "a,,b," gives "a", "", "b", ""; a tags string
    that ends in a comma gives a last subject that is empty, and two commas
    in a row give an empty subject between the subjects of the text before
    and of the text after. *)
Theorem subjects_keep_empty_segments (rt : Runtime) (product : Product)
    (config : Config) :
  let item := createRSSItem rt product config in
  (tags product = Some (lit "a,b,") ->
   item_dc_subject item = Some [lit "a"; lit "b"; []]) /\
  (tags product = Some (lit "a,,b,") ->
   item_dc_subject item = Some [lit "a"; []; lit "b"; []]) /\
  (forall pre, tags product = Some (pre ++ [c_comma]) ->
     item_dc_subject item
     = Some (map trim (split_on c_comma pre) ++ [[]])) /\
  (forall pre post,
     tags product = Some (pre ++ [c_comma; c_comma] ++ post) ->
     item_dc_subject item
     = Some (map trim (split_on c_comma pre)
             ++ [] :: map trim (split_on c_comma post))).
Proof.
  cbn zeta. split; [|split; [|split]].
  - intros Ht. by rewrite (subject_of_tags _ _ _ _ Ht).
  - intros Ht. by rewrite (subject_of_tags _ _ _ _ Ht).
  - intros pre Ht. rewrite (subject_of_tags _ _ _ _ Ht) by (by destruct pre).
    by rewrite split_on_app, map_app.
  - intros pre post Ht.
    rewrite (subject_of_tags _ _ _ _ Ht) by (by destruct pre).
    change ([c_comma; c_comma] ++ post) with (c_comma :: (c_comma :: post)).
    rewrite split_on_app, map_app.
    change (split_on c_comma (c_comma :: post))
      with ([] :: split_on c_comma post).
    done.
Qed.

Lemma subjects_keep_empty_segments_witness :
  let item := createRSSItem Samples.sample_runtime
                (Samples.sample_product "mug" None
                   (Some (lit "red, ,blue" ++ [c_comma])))
                empty_config in
  item_dc_subject item
  = Some (map trim (split_on c_comma (lit "red, ,blue")) ++ [[]]).
Proof.
  exact (proj1 (proj2 (proj2
           (subjects_keep_empty_segments Samples.sample_runtime
              (Samples.sample_product "mug" None
                 (Some (lit "red, ,blue" ++ [c_comma])))
              empty_config))) (lit "red, ,blue") eq_refl).
Defined.

End FeedFacts.

(** ** The handlers *)

Module ServerFacts.
Import JsString Feed Server.

Section WithRuntime.
Context (rt : Runtime).

(** The request [getAllProducts] sends for a shop. *)
Lemma getAllProducts_calls (w : World rt) (api : SimpleShopifyAPI)
    (calls : list Request) :
  exists req, snd (getAllProducts rt w api calls) = calls ++ [req].
Proof.
  unfold getAllProducts, try_catch, axios_get, throw. cbn beta.
  eexists. by destruct (upstream _ _).
Qed.

(** With the shop configured, a handler sends exactly one request. *)
Lemma configured_one_call (e : Endpoint) (w : World rt)
    (calls : list Request) :
  truthy (env w !! "SHOPIFY_SHOP_DOMAIN"%string) = true ->
  truthy (env w !! "SHOPIFY_ACCESS_TOKEN"%string) = true ->
  exists req, snd (handle_request rt e w calls) = calls ++ [req].
Proof.
  intros Hd Ht.
  destruct e; cbn [handle_request];
    unfold get_rss, get_rss_pinterest, get_products_count;
    cbv zeta; rewrite Hd, Ht; cbn [negb orb];
    unfold try_catch, bind, getAllProducts, try_catch, axios_get, throw,
      array_of, lift, ret; cbn beta;
    eexists;
    destruct (upstream _ _) as [[ps|]|err]; cbn beta iota;
    try destruct (generateRSS _ _ _ _); reflexivity.
Qed.

(** The two feed handlers run the same body and differ in the label of the
    error response only. *)
Lemma feed_handlers_share_body :
  exists body : World rt -> M Response,
    (forall w, get_rss rt w
       = try_catch (body w)
           (fun error =>
              ret {| res_status := 500;
                     res_content_type := None;
                     res_body :=
                       Json [ ("error"%string, VStr rss_failed_error);
                              ("message"%string, VStr error) ] |})) /\
    (forall w, get_rss_pinterest rt w
       = try_catch (body w)
           (fun error =>
              ret {| res_status := 500;
                     res_content_type := None;
                     res_body :=
                       Json [ ("error"%string, VStr pinterest_failed_error);
                              ("message"%string, VStr error) ] |})).
Proof. eexists. split; intros w; reflexivity. Qed.

(** C6. When the shop domain or the access token is absent or empty, each
    of the three data handlers answers with status 500 and a body with an
    error and a message field, and records no outbound request. *)
Theorem missing_config_short_circuit (e : Endpoint) (w : World rt)
    (calls : list Request) :
  truthy (env w !! "SHOPIFY_SHOP_DOMAIN"%string) = false \/
  truthy (env w !! "SHOPIFY_ACCESS_TOKEN"%string) = false ->
  exists resp,
    handle_request rt e w calls = (Ok resp, calls) /\
    res_status resp = 500 /\
    res_body resp
    = Json [ ("error"%string, VStr config_missing_error);
             ("message"%string, VStr config_missing_message) ].
Proof.
  intros H.
  assert (Htest :
    negb (truthy (env w !! "SHOPIFY_SHOP_DOMAIN"%string))
    || negb (truthy (env w !! "SHOPIFY_ACCESS_TOKEN"%string)) = true).
  { destruct H as [-> | ->]; [done|apply orb_true_r]. }
  destruct e; cbn [handle_request];
    unfold get_rss, get_rss_pinterest, get_products_count;
    cbv zeta; rewrite Htest; unfold try_catch, ret;
    eexists; (split; [reflexivity|]); split; reflexivity.
Qed.

(** C9. A response with status 200 is the outcome of the /rss/pinterest
    handler exactly when it is the outcome of the /rss handler, with the
    same recorded requests; its body is the document that [generateRSS]
    builds from the upstream products with the configuration of the
    request. *)
Theorem pinterest_feed_same_as_rss (w : World rt) (calls calls' : list Request)
    (resp : Response) :
  res_status resp = 200 ->
  (get_rss rt w calls = (Ok resp, calls')
   <-> get_rss_pinterest rt w calls = (Ok resp, calls')) /\
  (get_rss_pinterest rt w calls = (Ok resp, calls') ->
   exists products xml,
     generateRSS rt products
       (feed_config rt w (env w !! "SHOPIFY_SHOP_DOMAIN"%string)) (now w)
     = Ok xml /\
     resp = {| res_status := 200;
               res_content_type := Some rss_content_type;
               res_body := Send xml |}).
Proof.
  intros Hstatus. split.
  - destruct feed_handlers_share_body as (body & -> & ->).
    unfold try_catch, ret.
    destruct (body w calls) as [[a|err] c]; [done|].
    split; intros H; injection H as <- _; done.
  - unfold get_rss_pinterest. cbv zeta.
    destruct (negb _ || negb _).
    + unfold try_catch, ret. intros H. injection H as <- _. done.
    + unfold try_catch, bind, getAllProducts, try_catch, axios_get, throw,
        array_of, lift, ret. cbn beta.
      destruct (upstream _ _) as [[ps|]|err]; cbn beta iota.
      * destruct (generateRSS _ _ _ _) as [xml|err] eqn:E; cbn beta iota.
        -- intros H. injection H as <- _. by exists ps, xml.
        -- intros H. injection H as <- _. done.
      * intros H. injection H as <- _. done.
      * intros H. injection H as <- _. done.
Qed.

End WithRuntime.

Lemma missing_config_short_circuit_witness :
  let w := Samples.sample_world
             {[ "SHOPIFY_SHOP_DOMAIN"%string := lit "demo.myshopify.com" ]}
             [] in
  exists resp,
    handle_request Samples.sample_runtime ProductsCount w [] = (Ok resp, [])
    /\ res_status resp = 500
    /\ res_body resp
       = Json [ ("error"%string, VStr config_missing_error);
                ("message"%string, VStr config_missing_message) ].
Proof.
  intros w.
  exact (missing_config_short_circuit Samples.sample_runtime ProductsCount
           w [] (or_intror eq_refl)).
Defined.

Lemma pinterest_feed_same_as_rss_witness :
  let w := Samples.sample_world Samples.configured_env
             [ Samples.sample_product "mug" None None;
               Samples.sample_product "cup" None None ] in
  let resp := {| res_status := 200;
                 res_content_type := Some rss_content_type;
                 res_body := Send (lit "mug;cup;") |} in
  let calls' := snd (get_rss Samples.sample_runtime w []) in
  get_rss Samples.sample_runtime w [] = (Ok resp, calls') /\
  get_rss_pinterest Samples.sample_runtime w [] = (Ok resp, calls').
Proof.
  intros w resp calls'.
  assert (E : get_rss Samples.sample_runtime w [] = (Ok resp, calls'))
    by (vm_compute; reflexivity).
  split; [exact E|].
  exact (proj1 (proj1 (pinterest_feed_same_as_rss Samples.sample_runtime
                         w [] calls' resp eq_refl)) E).
Defined.

End ServerFacts.

(** ** Further properties of the text steps *)

Module TextFacts.
Import JsString Feed Vocabulary JsStringFacts FeedFacts.

(** *** Tag stripping *)

Lemma has_gt_strip_tags_from (b : bool) (s : jsstring) :
  has_gt (strip_tags_from b s) = true -> has_gt s = true.
Proof.
  revert b; induction s as [|c r IH]; intros b; [done|].
  cbn [strip_tags_from has_gt]. destruct b.
  - destruct (c =? c_gt)%N; [done|]. cbn [orb]. apply IH.
  - destruct ((c =? c_lt)%N && has_gt r) eqn:E.
    + intros H. apply IH in H. rewrite H. apply orb_true_r.
    + cbn [has_gt]. destruct (c =? c_gt)%N; [done|]. cbn [orb]. apply IH.
Qed.

Lemma matches_tag_strip_tags_from (b : bool) (s : jsstring) :
  matches_tag (strip_tags_from b s) = false.
Proof.
  revert b; induction s as [|c r IH]; intros b; [by destruct b|].
  cbn [strip_tags_from]. destruct b.
  - destruct (c =? c_gt)%N; apply IH.
  - destruct ((c =? c_lt)%N && has_gt r) eqn:E; [apply IH|].
    cbn [matches_tag]. rewrite IH, orb_false_r.
    destruct (c =? c_lt)%N; [|done]. cbn [andb] in E |- *.
    destruct (has_gt (strip_tags_from false r)) eqn:G; [|done].
    apply has_gt_strip_tags_from in G. congruence.
Qed.

(** X1. What [strip_tags] returns has no tag left in it, so stripping a
    second time changes nothing. *)
Theorem strip_tags_leaves_no_tag (s : jsstring) :
  matches_tag (strip_tags s) = false /\
  strip_tags (strip_tags s) = strip_tags s.
Proof.
  assert (H : matches_tag (strip_tags s) = false)
    by apply matches_tag_strip_tags_from.
  split; [exact H|]. by apply strip_tags_absent.
Qed.

Lemma strip_tags_from_text (a rest : jsstring) :
  no_lt a = true ->
  strip_tags_from false (a ++ rest) = a ++ strip_tags_from false rest.
Proof.
  induction a as [|c a IH]; [done|]. cbn [no_lt forallb]. intros H.
  apply andb_prop in H as [Hc Ha]. apply negb_true_iff in Hc.
  change ((c :: a) ++ rest) with (c :: (a ++ rest)).
  cbn [strip_tags_from]. rewrite Hc. cbn [andb]. by rewrite (IH Ha).
Qed.

Lemma strip_tags_from_inside (mid rest : jsstring) :
  has_gt mid = false ->
  strip_tags_from true (mid ++ c_gt :: rest) = strip_tags_from false rest.
Proof.
  induction mid as [|c mid IH]; [done|]. cbn [has_gt]. intros H.
  apply orb_false_elim in H as [Hc Hm].
  change ((c :: mid) ++ c_gt :: rest) with (c :: (mid ++ c_gt :: rest)).
  cbn [strip_tags_from]. rewrite Hc. by apply IH.
Qed.

Lemma has_gt_app (a b : jsstring) : has_gt (a ++ c_gt :: b) = true.
Proof.
  induction a as [|c a IH]; [done|]. simpl. rewrite IH. apply orb_true_r.
Qed.

(** X2. A tag, that is a [<], characters other than [>] and a [>], is
    removed whole; the text before it, when it has no [<], is kept as it
    is, and the text after it is stripped in turn. *)
Theorem strip_tags_removes_tag (a mid b : jsstring) :
  no_lt a = true -> has_gt mid = false ->
  strip_tags (a ++ c_lt :: mid ++ c_gt :: b) = a ++ strip_tags b.
Proof.
  intros Ha Hmid. unfold strip_tags.
  rewrite strip_tags_from_text by done. cbn [strip_tags_from].
  rewrite N.eqb_refl, has_gt_app. cbn [andb].
  by rewrite strip_tags_from_inside.
Qed.

Lemma strip_tags_removes_tag_witness :
  strip_tags (lit "Soft " ++ c_lt :: lit "b class=x" ++ c_gt :: lit "wool")
  = lit "Soft " ++ strip_tags (lit "wool").
Proof. apply strip_tags_removes_tag; reflexivity. Defined.

(** *** Lengths *)

Lemma length_strip_tags_from (b : bool) (s : jsstring) :
  length (strip_tags_from b s) <= length s.
Proof.
  revert b; induction s as [|c r IH]; intros b; [simpl; lia|].
  cbn [strip_tags_from]. pose proof (IH true). pose proof (IH false).
  destruct b; [destruct (c =? c_gt)%N
              |destruct ((c =? c_lt)%N && has_gt r)]; simpl; lia.
Qed.

Lemma length_replace_all (pat rep s : jsstring) :
  pat <> [] -> length rep <= length pat ->
  length (replace_all pat rep s) <= length s.
Proof.
  intros Hne Hlen. remember (length s) as n eqn:Hn. revert s Hn.
  induction n as [n IH] using lt_wf_ind. intros s Hn.
  destruct s as [|c r]; [simpl; lia|].
  destruct (starts_with pat (c :: r)) eqn:E.
  - apply starts_with_inv in E as [t E]. rewrite E in Hn |- *.
    rewrite replace_all_match by done. rewrite !length_app in *.
    assert (length t < n) by (subst n; destruct pat; [done|]; simpl; lia).
    pose proof (IH (length t) ltac:(done) t eq_refl). lia.
  - rewrite replace_all_nomatch by done. simpl in *.
    pose proof (IH (length r) ltac:(lia) r eq_refl). lia.
Qed.

Lemma length_decode_entities (s : jsstring) :
  length (decode_entities s) <= length s.
Proof.
  unfold decode_entities.
  repeat (etransitivity;
          [apply length_replace_all;
           [intros Heq; vm_compute in Heq; discriminate Heq
           |vm_compute; lia]|]).
  done.
Qed.

Lemma length_sanitize (h : jsstring) : length (sanitize h) <= length h.
Proof.
  unfold sanitize.
  pose proof (length_normalize (decode_entities (strip_tags h))).
  pose proof (length_decode_entities (strip_tags h)).
  pose proof (length_strip_tags_from false h). unfold strip_tags in *. lia.
Qed.

(** X3. [cleanDescription] never returns more characters than it was
    given, the ellipsis included. *)
Theorem cleanDescription_never_longer (h : jsstring) :
  length (cleanDescription (Some h)) <= length h.
Proof.
  destruct h as [|c r]; [simpl; lia|]. cbn [cleanDescription].
  pose proof (length_sanitize (c :: r)).
  destruct (Nat.ltb_spec 500 (length (sanitize (c :: r)))); [|lia].
  rewrite length_app, length_take. change (length ellipsis) with 3. lia.
Qed.

(** *** White space in the result *)

Lemma collapsed_nonws (b : bool) (y : jsstring) :
  forallb not_ws y = true -> collapsed b y = true.
Proof.
  revert b; induction y as [|c y IH]; intros b; [done|].
  cbn [forallb collapsed]. intros H. apply andb_prop in H as [Hc Hy].
  unfold not_ws in Hc. apply negb_true_iff in Hc. rewrite Hc. by apply IH.
Qed.

Lemma collapsed_app_nonws (b : bool) (x y : jsstring) :
  collapsed b x = true -> forallb not_ws y = true ->
  collapsed b (x ++ y) = true.
Proof.
  revert b; induction x as [|c x IH]; intros b Hx Hy.
  - by apply collapsed_nonws.
  - change ((c :: x) ++ y) with (c :: (x ++ y)). cbn [collapsed] in *.
    destruct (is_ws c).
    + apply andb_prop in Hx as [H1 H2]. rewrite H1. by apply IH.
    + by apply IH.
Qed.

Lemma collapsed_take (b : bool) (n : nat) (s : jsstring) :
  collapsed b s = true -> collapsed b (take n s) = true.
Proof.
  revert b n; induction s as [|c r IH]; intros b n H; [by destruct n|].
  destruct n as [|n]; [done|]. cbn [take firstn collapsed] in *.
  destruct (is_ws c).
  - apply andb_prop in H as [H1 H2]. rewrite H1. by apply IH.
  - by apply IH.
Qed.

Lemma collapsed_sanitize (h : jsstring) : collapsed false (sanitize h) = true.
Proof.
  unfold sanitize, trim. apply collapsed_trim_end, collapsed_trim_start.
  apply collapsed_collapse_ws_from.
Qed.

Lemma ends_clean_trim_end (s : jsstring) : ends_clean (trim_end s) = true.
Proof.
  induction s as [|c r IH]; [done|]. cbn [trim_end].
  destruct (trim_end r) as [|x r'].
  - destruct (is_ws c) eqn:Hc; [done|]. unfold ends_clean, not_ws.
    cbn [last]. by rewrite Hc.
  - exact IH.
Qed.

Lemma ends_clean_ellipsis (x : jsstring) : ends_clean (x ++ ellipsis) = true.
Proof.
  change ellipsis with ([46%N; 46%N] ++ [46%N]).
  rewrite app_assoc. unfold ends_clean. by rewrite last_snoc.
Qed.

(** What [collapsed] says, character by character. *)
Lemma collapsed_spec (b : bool) (s : jsstring) :
  collapsed b s = true ->
  (forall c, In c s -> is_ws c = true -> c = c_space) /\
  (forall a c1 c2 t, s = a ++ c1 :: c2 :: t ->
     is_ws c1 = true -> is_ws c2 = false).
Proof.
  revert b; induction s as [|c r IH]; intros b H.
  - split; [done|]. intros a c1 c2 t E. by destruct a.
  - cbn [collapsed] in H. destruct (is_ws c) eqn:Hc.
    + apply andb_prop in H as [H Hr]. apply andb_prop in H as [Hsp _].
      apply N.eqb_eq in Hsp. destruct (IH _ Hr) as [IH1 IH2]. split.
      * intros y [<-|Hy] Hw; [done|by apply IH1].
      * intros a c1 c2 t E Hw. destruct a as [|x a].
        -- simpl in E. injection E as -> ->. cbn [collapsed] in Hr.
           destruct (is_ws c2); [|done]. by rewrite andb_false_r in Hr.
        -- simpl in E. injection E as -> E. by apply (IH2 a c1 c2 t).
    + destruct (IH _ H) as [IH1 IH2]. split.
      * intros y [<-|Hy] Hw; [congruence|by apply IH1].
      * intros a c1 c2 t E Hw. destruct a as [|x a].
        -- simpl in E. injection E as -> ->. congruence.
        -- simpl in E. injection E as -> E. by apply (IH2 a c1 c2 t).
Qed.

(** X4. In what [cleanDescription] returns, every white space character is
    a plain space, no white space character follows another, and the text
    neither starts nor ends with white space. *)
Theorem cleanDescription_white_space (html : option jsstring) :
  let out := cleanDescription html in
  (forall c, In c out -> is_ws c = true -> c = c_space) /\
  (forall a c1 c2 t, out = a ++ c1 :: c2 :: t ->
     is_ws c1 = true -> is_ws c2 = false) /\
  starts_clean out = true /\
  ends_clean out = true.
Proof.
  cbn zeta.
  assert (H : collapsed false (cleanDescription html) = true
              /\ starts_clean (cleanDescription html) = true
              /\ ends_clean (cleanDescription html) = true).
  { destruct html as [[|c r]|]; [done| |done]. cbn [cleanDescription].
    pose proof (collapsed_sanitize (c :: r)) as Hc.
    assert (Hs : starts_clean (sanitize (c :: r)) = true)
      by apply starts_clean_trim_end, starts_clean_trim_start.
    destruct (Nat.ltb_spec 500 (length (sanitize (c :: r)))) as [Hl|Hl].
    - split; [|split].
      + apply collapsed_app_nonws; [by apply collapsed_take|done].
      + destruct (sanitize (c :: r)) as [|x xs]; [simpl in Hl; lia|done].
      + apply ends_clean_ellipsis.
    - split; [done|]. split; [done|]. apply ends_clean_trim_end. }
  destruct H as (Hc & Hs & He).
  destruct (collapsed_spec _ _ Hc) as [H1 H2]. by repeat split.
Qed.

Lemma cleanDescription_white_space_witness :
  let out := cleanDescription (Some (lit "  <p>Soft
     wool &nbsp; scarf</p>  ")) in
  out = lit "Soft wool scarf" /\
  (forall c, In c out -> is_ws c = true -> c = c_space) /\
  (forall a c1 c2 t, out = a ++ c1 :: c2 :: t ->
     is_ws c1 = true -> is_ws c2 = false).
Proof.
  split; [reflexivity|].
  pose proof (cleanDescription_white_space (Some (lit "  <p>Soft
     wool &nbsp; scarf</p>  "))) as (H1 & H2 & _).
  split; [exact H1|exact H2].
Defined.

(** *** Entities *)

(** X5. Text in which none of the six entities occurs passes the decoding
    step unchanged; so does, in particular, text without [&]. *)
Theorem decode_entities_only_entities (s : jsstring) :
  has_entity s = false \/ no_amp s = true -> decode_entities s = s.
Proof.
  intros [H|H]; [by apply decode_entities_absent|].
  apply decode_entities_plain. apply Forall_forall. intros c Hc.
  unfold no_amp in H. rewrite forallb_forall in H.
  apply list_elem_of_In in Hc. specialize (H c Hc).
  apply negb_true_iff in H. by apply N.eqb_neq.
Qed.

Lemma decode_entities_only_entities_witness :
  decode_entities (lit "R&D; 100% &copy; &#233; & co") 
  = lit "R&D; 100% &copy; &#233; & co".
Proof.
  apply decode_entities_only_entities. left. reflexivity.
Defined.

(** The replacements after the first, around an entity they decode. *)
Lemma later_steps_in_context (pat rep X Y : jsstring) :
  In (pat, rep) entity_table -> pat <> amp_entity ->
  replace_all nbsp_entity [c_space]
    (replace_all apos_entity [39%N]
      (replace_all quot_entity [34%N]
        (replace_all gt_entity [c_gt]
          (replace_all lt_entity [c_lt] (X ++ pat ++ Y)))))
  = replace_all nbsp_entity [c_space]
      (replace_all apos_entity [39%N]
        (replace_all quot_entity [34%N]
          (replace_all gt_entity [c_gt]
            (replace_all lt_entity [c_lt] X))))
    ++ rep
    ++ replace_all nbsp_entity [c_space]
         (replace_all apos_entity [39%N]
           (replace_all quot_entity [34%N]
             (replace_all gt_entity [c_gt]
               (replace_all lt_entity [c_lt] Y)))).
Proof.
  intros Hin Hne. cbn [In entity_table] in Hin.
  destruct Hin as [H|[H|[H|[H|[H|[H|[]]]]]]]; injection H as <- <-;
    try done.
  - rewrite (replace_all_match_frame lt_entity _ eq_refl).
    cbn [app].
    by rewrite !(replace_all_char_frame _ _ c_lt).
  - rewrite (replace_all_entity_frame lt_entity _ eq_refl gt_entity)
      by done.
    rewrite (replace_all_match_frame gt_entity _ eq_refl).
    cbn [app].
    by rewrite !(replace_all_char_frame _ _ c_gt).
  - rewrite (replace_all_entity_frame lt_entity _ eq_refl quot_entity)
      by done.
    rewrite (replace_all_entity_frame gt_entity _ eq_refl quot_entity)
      by done.
    rewrite (replace_all_match_frame quot_entity _ eq_refl).
    cbn [app].
    by rewrite !(replace_all_char_frame _ _ 34%N).
  - rewrite (replace_all_entity_frame lt_entity _ eq_refl apos_entity)
      by done.
    rewrite (replace_all_entity_frame gt_entity _ eq_refl apos_entity)
      by done.
    rewrite (replace_all_entity_frame quot_entity _ eq_refl apos_entity)
      by done.
    rewrite (replace_all_match_frame apos_entity _ eq_refl).
    cbn [app].
    by rewrite !(replace_all_char_frame _ _ 39%N).
  - rewrite (replace_all_entity_frame lt_entity _ eq_refl nbsp_entity)
      by done.
    rewrite (replace_all_entity_frame gt_entity _ eq_refl nbsp_entity)
      by done.
    rewrite (replace_all_entity_frame quot_entity _ eq_refl nbsp_entity)
      by done.
    rewrite (replace_all_entity_frame apos_entity _ eq_refl nbsp_entity)
      by done.
    by rewrite (replace_all_match_frame nbsp_entity _ eq_refl).
Qed.

(** X6. The replacements run one after the other with [&amp;] first, so an
    escaped entity is decoded twice: [&amp;] followed by the rest of one of
    the other five entities (as in [&amp;lt;]) ends as the character of
    that entity, wherever it stands. *)
Theorem decode_entities_decodes_twice (pat rep pre post : jsstring) :
  In (pat, rep) entity_table -> pat <> amp_entity ->
  decode_entities (pre ++ amp_entity ++ tail pat ++ post)
  = decode_entities pre ++ rep ++ decode_entities post.
Proof.
  intros Hin Hne. unfold decode_entities.
  rewrite (replace_all_match_frame amp_entity [c_amp] eq_refl).
  assert (Htail : Forall (fun c => c <> c_amp) (tail pat)).
  { cbn [In entity_table] in Hin.
    destruct Hin as [H|[H|[H|[H|[H|[H|[]]]]]]]; injection H as <- <-;
      vm_compute; repeat constructor; discriminate. }
  rewrite (replace_all_plain amp_entity [c_amp] eq_refl (tail pat))
    by done.
  assert (Hpat : [c_amp] ++ tail pat = pat).
  { cbn [In entity_table] in Hin.
    destruct Hin as [H|[H|[H|[H|[H|[H|[]]]]]]]; by injection H as <- <-. }
  rewrite (app_assoc [c_amp]), Hpat.
  by apply later_steps_in_context.
Qed.

Lemma decode_entities_decodes_twice_witness :
  decode_entities (lit "if a " ++ amp_entity ++ tail lt_entity ++ lit " b")
  = decode_entities (lit "if a ") ++ lit "<" ++ decode_entities (lit " b").
Proof.
  apply (decode_entities_decodes_twice lt_entity (lit "<")).
  - right; left; reflexivity.
  - intros H; vm_compute in H; discriminate H.
Defined.

(** *** Escaped markup *)

Lemma matches_tag_no_lt (s : jsstring) :
  no_lt s = true -> matches_tag s = false.
Proof.
  induction s as [|c r IH]; [done|]. cbn [no_lt forallb matches_tag].
  intros H. apply andb_prop in H as [Hc Hr]. apply negb_true_iff in Hc.
  rewrite Hc. by apply IH.
Qed.

Lemma matches_tag_has_gt (s : jsstring) :
  has_gt s = false -> matches_tag s = false.
Proof.
  induction s as [|c r IH]; [done|]. cbn [has_gt matches_tag].
  intros H. apply orb_false_elim in H as [_ Hr].
  rewrite Hr, andb_false_r. by apply IH.
Qed.

Lemma matches_tag_intro (a mid b : jsstring) :
  matches_tag (a ++ c_lt :: mid ++ c_gt :: b) = true.
Proof.
  induction a as [|c a IH].
  - cbn [app matches_tag]. by rewrite N.eqb_refl, has_gt_app.
  - change ((c :: a) ++ c_lt :: mid ++ c_gt :: b)
      with (c :: (a ++ c_lt :: mid ++ c_gt :: b)).
    cbn [matches_tag]. rewrite IH. apply orb_true_r.
Qed.

(** X20. Escaped markup comes out as markup: when the text has no [<] of
    its own, an [&lt;] followed later by an [&gt;] leaves a tag in the
    cleaned text, and for a text of at most 500 characters that is what
    [cleanDescription] returns. *)
Theorem escaped_tag_survives (pre mid post : jsstring) :
  no_lt pre = true -> no_lt mid = true -> no_lt post = true ->
  let h := pre ++ lt_entity ++ mid ++ gt_entity ++ post in
  matches_tag (sanitize h) = true /\
  (length h <= 500 -> matches_tag (cleanDescription (Some h)) = true).
Proof.
  intros Hpre Hmid Hpost h.
  assert (Hs : matches_tag (sanitize h) = true).
  { unfold sanitize. rewrite matches_tag_normalize.
    rewrite strip_tags_absent.
    - subst h.
      rewrite (decode_entities_in_context lt_entity [c_lt])
        by (vm_compute; intuition discriminate).
      rewrite (decode_entities_in_context gt_entity [c_gt])
        by (vm_compute; intuition discriminate).
      apply matches_tag_intro.
    - apply matches_tag_no_lt. subst h. unfold no_lt in *.
      rewrite !forallb_app, Hpre, Hmid, Hpost. reflexivity. }
  split; [exact Hs|]. intros Hlen.
  assert (Hne : h <> []) by (subst h; by destruct pre).
  destruct h as [|c r] eqn:E; [done|]. cbn [cleanDescription].
  pose proof (length_sanitize (c :: r)).
  by destruct (Nat.ltb_spec 500 (length (sanitize (c :: r)))); [lia|].
Qed.

Lemma escaped_tag_survives_witness :
  cleanDescription
    (Some (lit "Use " ++ lt_entity ++ lit "b" ++ gt_entity ++ lit " here"))
  = lit "Use <b> here" /\
  matches_tag
    (cleanDescription
       (Some (lit "Use " ++ lt_entity ++ lit "b" ++ gt_entity
              ++ lit " here"))) = true.
Proof.
  split; [reflexivity|].
  apply (proj2 (escaped_tag_survives (lit "Use ") (lit "b") (lit " here")
                  eq_refl eq_refl eq_refl)).
  vm_compute. lia.
Defined.

(** X21. A [<] that no [>] follows is not a tag: text without any [>] passes
    the tag stripping unchanged. *)
Theorem strip_tags_keeps_text_without_gt (s : jsstring) :
  has_gt s = false -> strip_tags s = s.
Proof. intros H. by apply strip_tags_absent, matches_tag_has_gt. Qed.

Lemma strip_tags_keeps_text_without_gt_witness :
  strip_tags (lit "fits sizes < 40 and <XL") = lit "fits sizes < 40 and <XL".
Proof. apply strip_tags_keeps_text_without_gt. reflexivity. Defined.

(** X22. A description of at most 500 characters is never cut: the result
    is the sanitized text, without an ellipsis. *)
Theorem short_description_not_truncated (h : jsstring) :
  length h <= 500 -> cleanDescription (Some h) = sanitize h.
Proof.
  intros Hlen. destruct h as [|c r]; [done|]. cbn [cleanDescription].
  pose proof (length_sanitize (c :: r)).
  by destruct (Nat.ltb_spec 500 (length (sanitize (c :: r)))); [lia|].
Qed.

Lemma short_description_not_truncated_witness :
  cleanDescription (Some (lit "<p>Blue mug...</p>"))
  = sanitize (lit "<p>Blue mug...</p>").
Proof. apply short_description_not_truncated. vm_compute. lia. Defined.

End TextFacts.

(** ** Further properties of the items *)

Module ItemFacts.
Import JsString Feed Vocabulary JsStringFacts FeedFacts TextFacts.

Lemma split_on_no_sep (sep : char) (s : jsstring) :
  Forall (fun seg => forallb (fun c => negb (c =? sep)%N) seg = true)
         (split_on sep s).
Proof.
  induction s as [|c r IH]; [by repeat constructor|]. cbn [split_on].
  destruct (c =? sep)%N eqn:E; [by constructor|].
  destruct (split_on sep r) as [|h t]; [by repeat constructor; simpl; rewrite E|].
  inversion IH; subst. constructor; [|done]. cbn [forallb].
  rewrite E. done.
Qed.

Lemma trim_infix (s : jsstring) : exists l t, s = l ++ trim s ++ t.
Proof.
  unfold trim.
  destruct (trim_start_suffix s) as [l [Hl _]].
  destruct (trim_end_prefix (trim_start s)) as [t [Ht _]].
  exists l, t. by rewrite <- Ht.
Qed.

Lemma no_comma_trim (s : jsstring) :
  no_comma s = true -> no_comma (trim s) = true.
Proof.
  unfold no_comma. destruct (trim_infix s) as (l & t & E).
  rewrite E at 1. rewrite !forallb_app. intros H.
  apply andb_prop in H as [_ H]. by apply andb_prop in H as [H _].
Qed.

(** X7. When an item has subjects, the list is not empty, and no subject
    holds a comma or starts or ends with white space. *)
Theorem subjects_are_trimmed_segments (rt : Runtime) (product : Product)
    (config : Config) (subjects : list jsstring) :
  item_dc_subject (createRSSItem rt product config) = Some subjects ->
  subjects <> [] /\
  (forall seg, In seg subjects ->
     no_comma seg = true /\ starts_clean seg = true
     /\ ends_clean seg = true).
Proof.
  cbn [createRSSItem item_dc_subject].
  destruct (tags product) as [[|c r]|]; [done| |done].
  intros H.
  assert (Hs : subjects = map trim (split_on c_comma (c :: r)))
    by congruence.
  clear H. subst subjects. split.
  - intros E. apply (f_equal length) in E.
    rewrite length_map, length_split_on in E. done.
  - intros seg Hin. apply in_map_iff in Hin as (raw & <- & Hraw).
    split; [|split].
    + apply no_comma_trim.
      pose proof (split_on_no_sep c_comma (c :: r)) as Hall.
      rewrite Forall_forall in Hall. apply Hall. by apply list_elem_of_In.
    + apply starts_clean_trim_end, starts_clean_trim_start.
    + apply ends_clean_trim_end.
Qed.

Lemma subjects_are_trimmed_segments_witness :
  let subjects := [lit "wool"; lit "hand made"; []] in
  item_dc_subject
    (createRSSItem Samples.sample_runtime
       (Samples.sample_product "scarf" None
          (Some (lit " wool ,hand made  , ")))
       empty_config) = Some subjects /\
  subjects <> [] /\
  (forall seg, In seg subjects ->
     no_comma seg = true /\ starts_clean seg = true
     /\ ends_clean seg = true).
Proof.
  intros subjects.
  assert (E : item_dc_subject
                (createRSSItem Samples.sample_runtime
                   (Samples.sample_product "scarf" None
                      (Some (lit " wool ,hand made  , ")))
                   empty_config) = Some subjects) by reflexivity.
  split; [exact E|].
  exact (subjects_are_trimmed_segments _ _ _ _ E).
Defined.

(** X8. A product without variants gives an item without a price; a
    product with variants gives the price of the first variant, whatever
    the others are, with the currency "TRY". *)
Theorem media_price_first_variant (rt : Runtime) (product : Product)
    (config : Config) :
  let item := createRSSItem rt product config in
  (variants product = None \/ variants product = Some [] ->
   item_media_price item = None) /\
  (forall first others,
     variants product = Some (first :: others) ->
     item_media_price item
     = Some {| mp_currency := lit "TRY"; mp_text := price first |}).
Proof.
  cbn [createRSSItem item_media_price]. split.
  - by intros [-> | ->].
  - by intros first others ->.
Qed.

Lemma media_price_first_variant_witness :
  let p others :=
    {| title := lit "mug"; body_html := None; description := None;
       handle := lit "mug"; updated_at := lit "2024-01-01";
       images := None;
       variants := Some ({| price := lit "19.90" |} :: others);
       product_type := None; tags := None |} in
  item_media_price
    (createRSSItem Samples.sample_runtime
       (p [ {| price := lit "5.00" |} ]) empty_config)
  = Some {| mp_currency := lit "TRY"; mp_text := lit "19.90" |}.
Proof.
  intros p.
  exact (proj2 (media_price_first_variant Samples.sample_runtime
                  (p [ {| price := lit "5.00" |} ]) empty_config)
           _ _ eq_refl).
Defined.

(** X9. An optional field of an item is never present and empty: the media
    content list and the subject list, when present, have an entry; the
    thumbnail is present exactly when the media content is; and the
    category is present exactly when the product type is a string that is
    not empty, and is that string. *)
Theorem optional_fields_never_empty (rt : Runtime) (product : Product)
    (config : Config) :
  let item := createRSSItem rt product config in
  item_media_content item <> Some [] /\
  (is_Some (item_media_content item)
   <-> is_Some (item_media_thumbnail item)) /\
  (forall c, item_category item = Some c
             <-> product_type product = Some c /\ c <> []) /\
  item_dc_subject item <> Some [].
Proof.
  cbn [createRSSItem item_media_content item_media_thumbnail item_category
       item_dc_subject].
  split; [|split; [|split]].
  - by destruct (images product) as [[|i r]|].
  - destruct (images product) as [[|i r]|]; split; intros [x H]; try done;
      by eexists.
  - intros c. destruct (product_type product) as [[|x r]|]; split.
    + done.
    + intros [H Hne]. congruence.
    + intros H. split; congruence.
    + intros [H _]. done.
    + done.
    + intros [H _]. done.
  - destruct (tags product) as [[|c r]|]; [done| |done].
    intros H.
    assert (E : map trim (split_on c_comma (c :: r)) = []) by congruence.
    apply (f_equal length) in E.
    rewrite length_map, length_split_on in E. done.
Qed.

Lemma optional_fields_never_empty_witness :
  let p := {| title := lit "mug"; body_html := None; description := None;
              handle := lit "mug"; updated_at := lit "2024-01-01";
              images := None; variants := None;
              product_type := Some (lit "Mugs"); tags := None |} in
  item_category (createRSSItem Samples.sample_runtime p empty_config)
  = Some (lit "Mugs").
Proof.
  intros p.
  apply (proj1 (proj2 (proj2 (optional_fields_never_empty
                                Samples.sample_runtime p empty_config)))).
  split; [reflexivity|discriminate].
Defined.

(** X10. Every item of the channel comes from a product of the input: its
    link is the channel link followed by "/products/" and the handle of the
    product, its guid is that link and is marked as a permanent link, its
    creator is the channel title and its title is the title of the
    product. *)
Theorem items_under_channel_link (rt : Runtime) (products : list Product)
    (config : Config) (now : time rt) (item : RssItem) :
  let ch := rss_channel (rssObject rt products config now) in
  In item (ch_item ch) ->
  exists product,
    In product products /\
    item_title item = title product /\
    item_link item = ch_link ch ++ lit "/products/" ++ handle product /\
    guid_text (item_guid item) = item_link item /\
    guid_isPermaLink (item_guid item) = lit "true" /\
    item_dc_creator item = ch_title ch.
Proof.
  cbn [rssObject rss_channel ch_item ch_link ch_title]. intros Hin.
  apply in_map_iff in Hin as (product & <- & Hp).
  exists product. by repeat split.
Qed.

Lemma items_under_channel_link_witness :
  let mug := Samples.sample_product "mug" None None in
  let config := {| cfg_title := Some (lit "Shop"); cfg_description := None;
                   cfg_link := Some (lit "https://demo.example");
                   cfg_language := None |} in
  exists product,
    In product [mug] /\
    item_title (createRSSItem Samples.sample_runtime mug config)
    = title product /\
    item_link (createRSSItem Samples.sample_runtime mug config)
    = lit "https://demo.example" ++ lit "/products/" ++ handle product /\
    guid_text (item_guid (createRSSItem Samples.sample_runtime mug config))
    = item_link (createRSSItem Samples.sample_runtime mug config) /\
    guid_isPermaLink
      (item_guid (createRSSItem Samples.sample_runtime mug config))
    = lit "true" /\
    item_dc_creator (createRSSItem Samples.sample_runtime mug config)
    = lit "Shop".
Proof.
  intros mug config.
  exact (items_under_channel_link Samples.sample_runtime [mug] config
           (0 : time Samples.sample_runtime)
           (createRSSItem Samples.sample_runtime mug config)
           (or_introl eq_refl)).
Defined.

(** X11. The description of an item is made from [body_html] when that is
    a string that is not empty, else from [description]; when neither is,
    it is the empty string. *)
Theorem description_source (rt : Runtime) (product : Product)
    (config : Config) :
  let item := createRSSItem rt product config in
  (truthy (body_html product) = true ->
   item_description item = cleanDescription (body_html product)) /\
  (truthy (body_html product) = false ->
   item_description item = cleanDescription (description product)) /\
  (truthy (body_html product) = false ->
   truthy (description product) = false -> item_description item = []).
Proof.
  cbn [createRSSItem item_description]. unfold js_or.
  split; [|split].
  - by intros ->.
  - by intros ->.
  - intros -> H. by destruct (description product) as [[|c r]|].
Qed.

Lemma description_source_witness :
  let p := {| title := lit "mug"; body_html := Some [];
              description := Some (lit "<i>Blue</i> mug");
              handle := lit "mug"; updated_at := lit "2024-01-01";
              images := None; variants := None;
              product_type := None; tags := None |} in
  item_description (createRSSItem Samples.sample_runtime p empty_config)
  = cleanDescription (Some (lit "<i>Blue</i> mug")).
Proof.
  intros p.
  exact (proj1 (proj2 (description_source Samples.sample_runtime p
                         empty_config)) eq_refl).
Defined.

End ItemFacts.

(** ** Further properties of the client and the handlers *)

Module HandlerFacts.
Import JsString Feed Server Vocabulary.

Section WithRuntime.
Context (rt : Runtime).

Lemma products_request_built (d t : jsstring) :
  {| req_url :=
       baseURL (new_SimpleShopifyAPI (Some d) (Some t))
       ++ lit "/products.json";
     req_headers := headers (new_SimpleShopifyAPI (Some d) (Some t));
     req_params := [ ("limit"%string, VNum 250);
                     ("status"%string, VStr (lit "active"));
                     ("published_status"%string,
                      VStr (lit "published")) ] |}
  = products_request d t.
Proof.
  unfold products_request, new_SimpleShopifyAPI.
  cbn [baseURL headers template]. f_equal.
  by rewrite <- !app_assoc.
Qed.

Lemma getAllProducts_run (w : World rt) (d t : jsstring)
    (calls : list Request) :
  getAllProducts rt w (new_SimpleShopifyAPI (Some d) (Some t)) calls
  = (upstream w (products_request d t), calls ++ [products_request d t]).
Proof.
  unfold getAllProducts, try_catch, axios_get, throw.
  rewrite products_request_built.
  by destruct (upstream w (products_request d t)).
Qed.

(** Running a handler of a configured shop up to the answer of the
    upstream server. *)
Ltac run_configured Hd Ht :=
  unfold get_rss, get_rss_pinterest, get_products_count; cbv zeta;
  rewrite ?Hd, ?Ht; cbn [truthy negb orb];
  unfold try_catch, bind; rewrite getAllProducts_run;
  unfold array_of, lift, ret, throw.

(** X12. [getAllProducts] sends one request, to the products resource of
    the shop with the token in the header and the limit 250, and returns
    what the upstream server answers: the products, or the error as it
    came, without a second attempt. *)
Theorem getAllProducts_one_request (w : World rt) (d t : jsstring)
    (calls : list Request) :
  getAllProducts rt w (new_SimpleShopifyAPI (Some d) (Some t)) calls
  = (upstream w (products_request d t), calls ++ [products_request d t]).
Proof. apply getAllProducts_run. Qed.

(** X13. A handler of a data endpoint never lets an error escape: it always
    answers, with status 200 or 500, after at most one outbound request, and
    with status 200 only after one. *)
Theorem handler_always_answers (e : Endpoint) (w : World rt)
    (calls : list Request) :
  exists resp calls',
    handle_request rt e w calls = (Ok resp, calls') /\
    (res_status resp = 200 \/ res_status resp = 500) /\
    (calls' = calls \/ exists req, calls' = calls ++ [req]) /\
    (res_status resp = 200 -> exists req, calls' = calls ++ [req]).
Proof.
  destruct (env w !! "SHOPIFY_SHOP_DOMAIN"%string) as [[|x d]|] eqn:Hd;
  destruct (env w !! "SHOPIFY_ACCESS_TOKEN"%string) as [[|y t]|] eqn:Ht;
  destruct e; cbn [handle_request];
  try (unfold get_rss, get_rss_pinterest, get_products_count; cbv zeta;
       rewrite ?Hd, ?Ht; cbn [truthy negb orb]; unfold try_catch, ret;
       do 2 eexists; split; [reflexivity|]; cbn [res_status];
       split; [by right|]; split; [by left|done]).
  all: run_configured Hd Ht;
    destruct (upstream w _) as [[ps|]|msg]; cbn beta iota;
    try destruct (generateRSS _ _ _ _) as [xml|msg']; cbn beta iota;
    do 2 eexists; (split; [reflexivity|]); cbn [res_status];
    (split; [by (left + right)|]); (split; [right; by eexists|]);
    intros _; by eexists.
Qed.

Section Configured.
Context (w : World rt) (d t : jsstring).
Context (Hd : env w !! "SHOPIFY_SHOP_DOMAIN"%string = Some d).
Context (Ht : env w !! "SHOPIFY_ACCESS_TOKEN"%string = Some t).
Context (Hdne : d <> []) (Htne : t <> []).

Lemma configured_truthy :
  truthy (Some d) = true /\ truthy (Some t) = true.
Proof. by destruct d, t. Qed.

(** X14. With the shop configured, each of the three handlers sends
    exactly one request, the same for all three, whatever the upstream
    server answers. *)
Theorem handler_sends_products_request (e : Endpoint)
    (calls : list Request) :
  snd (handle_request rt e w calls) = calls ++ [products_request d t].
Proof.
  destruct configured_truthy as [Td Tt].
  destruct e; cbn [handle_request];
    unfold get_rss, get_rss_pinterest, get_products_count; cbv zeta;
    rewrite Hd, Ht, Td, Tt; cbn [negb orb];
    unfold try_catch, bind; rewrite getAllProducts_run;
    unfold array_of, lift, ret, throw;
    destruct (upstream w _) as [[ps|]|msg]; cbn beta iota;
    try destruct (generateRSS _ _ _ _) as [xml|msg']; reflexivity.
Qed.

(** X15. When the upstream server fails, the handler answers with status
    500, its own error label and the message of the upstream error. *)
Theorem upstream_error_response (e : Endpoint) (calls : list Request)
    (message : jsstring) :
  upstream w (products_request d t) = Throw message ->
  handle_request rt e w calls
  = (Ok (error_response (failure_label e) message),
     calls ++ [products_request d t]).
Proof.
  intros U. destruct configured_truthy as [Td Tt].
  destruct e; cbn [handle_request];
    unfold get_rss, get_rss_pinterest, get_products_count; cbv zeta;
    rewrite Hd, Ht, Td, Tt; cbn [negb orb];
    unfold try_catch, bind; rewrite getAllProducts_run, U; reflexivity.
Qed.

(** X16. When the upstream answer has no [products] field, reading its
    length throws, and the handler answers with status 500, its error
    label and the message of that TypeError. *)
Theorem missing_products_response (e : Endpoint) (calls : list Request) :
  upstream w (products_request d t) = Ok None ->
  handle_request rt e w calls
  = (Ok (error_response (failure_label e) (undefined_length_message rt)),
     calls ++ [products_request d t]).
Proof.
  intros U. destruct configured_truthy as [Td Tt].
  destruct e; cbn [handle_request];
    unfold get_rss, get_rss_pinterest, get_products_count; cbv zeta;
    rewrite Hd, Ht, Td, Tt; cbn [negb orb];
    unfold try_catch, bind; rewrite getAllProducts_run, U; reflexivity.
Qed.

(** X17. A feed handler answers all or nothing: with the products of the
    upstream server it sends the whole document that [generateRSS] built,
    with status 200 and the RSS content type, or, when the builder throws,
    status 500 with the message of that error. *)
Theorem feed_all_or_nothing (e : Endpoint) (calls : list Request)
    (ps : list Product) :
  upstream w (products_request d t) = Ok (Some ps) ->
  e <> ProductsCount ->
  handle_request rt e w calls
  = (Ok match generateRSS rt ps (feed_config rt w (Some d)) (now w) with
        | Ok xml => feed_response xml
        | Throw message => error_response (failure_label e) message
        end,
     calls ++ [products_request d t]).
Proof.
  intros U He. destruct configured_truthy as [Td Tt].
  destruct e; [| |done]; cbn [handle_request];
    unfold get_rss, get_rss_pinterest; cbv zeta;
    rewrite Hd, Ht, Td, Tt; cbn [negb orb];
    unfold try_catch, bind; rewrite getAllProducts_run, U;
    unfold array_of, lift, ret; cbn beta iota;
    by destruct (generateRSS _ _ _ _).
Qed.

(** X18. The count handler answers with the number of products the
    upstream server returned, as a number and inside the message; the XML
    builder plays no part in it. *)
Theorem count_of_upstream_products (calls : list Request)
    (ps : list Product) :
  upstream w (products_request d t) = Ok (Some ps) ->
  handle_request rt ProductsCount w calls
  = (Ok {| res_status := 200;
           res_content_type := None;
           res_body :=
             Json [ ("count"%string, VNum (length ps));
                    ("message"%string,
                     VStr (count_message (length ps))) ] |},
     calls ++ [products_request d t]).
Proof.
  intros U. destruct configured_truthy as [Td Tt].
  cbn [handle_request]. unfold get_products_count. cbv zeta.
  rewrite Hd, Ht, Td, Tt. cbn [negb orb].
  unfold try_catch, bind. by rewrite getAllProducts_run, U.
Qed.

End Configured.

Lemma or_default_nonempty (o : option jsstring) (dflt : jsstring) :
  dflt <> [] -> or_default o dflt <> [].
Proof. by destruct o as [[|c r]|]. Qed.

(** X19. The channel a handler builds takes nothing from the defaults of
    [generateRSS]: its link is "https://" followed by the configured
    domain, its language is "tr", its title and description are the
    environment's or the literals and are never empty, and the link of
    every item is that channel link followed by "/products/" and the
    handle of a product. *)
Theorem handler_channel (w : World rt) (d : jsstring) (ps : list Product) :
  env w !! "SHOPIFY_SHOP_DOMAIN"%string = Some d ->
  let config := feed_config rt w (env w !! "SHOPIFY_SHOP_DOMAIN"%string) in
  let ch := rss_channel (rssObject rt ps config (now w)) in
  ch_link ch = lit "https://" ++ d /\
  ch_language ch = lit "tr" /\
  ch_title ch = or_default (env w !! "RSS_TITLE"%string) default_title /\
  ch_description ch
  = or_default (env w !! "RSS_DESCRIPTION"%string) default_description /\
  ch_title ch <> [] /\ ch_description ch <> [] /\
  (forall item, In item (ch_item ch) ->
     exists p, In p ps /\
       item_link item = lit "https://" ++ d ++ lit "/products/" ++ handle p).
Proof.
  intros Hd. cbv zeta. rewrite Hd.
  cbn [rssObject rss_channel ch_link ch_language ch_title ch_description
       ch_item feed_config cfg_title cfg_description cfg_link cfg_language
       template].
  assert (Ht : forall o dflt, dflt <> [] ->
                 or_default (Some (or_default o dflt)) dflt
                 = or_default o dflt).
  { intros o dflt Hne. pose proof (or_default_nonempty o dflt Hne).
    by destruct (or_default o dflt). }
  rewrite !Ht by done.
  repeat split; try done; try (by apply or_default_nonempty).
  intros item Hin. apply in_map_iff in Hin as (p & <- & Hp).
  exists p. split; [done|]. cbn [createRSSItem item_link cfg_link].
  assert (Hl : or_default (Some (lit "https://" ++ d)) default_link
               = lit "https://" ++ d) by reflexivity.
  change (or_default (cfg_link (feed_config rt w (Some d))) default_link)
    with (or_default (Some (lit "https://" ++ d)) default_link).
  by rewrite Hl, <- app_assoc.
Qed.

End WithRuntime.

Lemma handler_always_answers_witness :
  exists req,
    snd (handle_request Samples.sample_runtime Rss
           (Samples.sample_world Samples.configured_env []) [])
    = [] ++ [req].
Proof.
  destruct (handler_always_answers Samples.sample_runtime Rss
              (Samples.sample_world Samples.configured_env []) [])
    as (resp & calls' & E & _ & _ & H).
  rewrite E. cbn [snd]. apply H.
  assert (E' : fst (handle_request Samples.sample_runtime Rss
                      (Samples.sample_world Samples.configured_env []) [])
               = Ok (feed_response [])) by (vm_compute; reflexivity).
  rewrite E in E'. cbn [fst] in E'. by injection E' as ->.
Defined.

Lemma handler_sends_products_request_witness :
  snd (handle_request Samples.sample_runtime ProductsCount
         (Samples.sample_world Samples.configured_env []) [])
  = [] ++ [products_request (lit "demo.myshopify.com") (lit "token")].
Proof.
  apply handler_sends_products_request;
    [reflexivity | reflexivity | discriminate | discriminate].
Defined.

Lemma upstream_error_response_witness :
  let w : World Samples.sample_runtime :=
    {| env := Samples.configured_env;
       upstream := fun _ => Throw (lit "Request failed with status code 401");
       now := (0 : time Samples.sample_runtime) |} in
  handle_request Samples.sample_runtime RssPinterest w []
  = (Ok (error_response pinterest_failed_error
           (lit "Request failed with status code 401")),
     [] ++ [products_request (lit "demo.myshopify.com") (lit "token")]).
Proof.
  intros w.
  apply (upstream_error_response Samples.sample_runtime w
           (lit "demo.myshopify.com") (lit "token"));
    [reflexivity | reflexivity | discriminate | discriminate | reflexivity].
Defined.

Lemma missing_products_response_witness :
  let w : World Samples.sample_runtime :=
    {| env := Samples.configured_env;
       upstream := fun _ => Ok None;
       now := (0 : time Samples.sample_runtime) |} in
  handle_request Samples.sample_runtime ProductsCount w []
  = (Ok (error_response count_failed_error
           (undefined_length_message Samples.sample_runtime)),
     [] ++ [products_request (lit "demo.myshopify.com") (lit "token")]).
Proof.
  intros w.
  apply (missing_products_response Samples.sample_runtime w
           (lit "demo.myshopify.com") (lit "token"));
    [reflexivity | reflexivity | discriminate | discriminate | reflexivity].
Defined.

Lemma feed_all_or_nothing_witness :
  let ps := [ Samples.sample_product "mug" None None ] in
  let w := Samples.sample_world Samples.configured_env ps in
  handle_request Samples.sample_runtime Rss w []
  = (Ok match generateRSS Samples.sample_runtime ps
                (feed_config Samples.sample_runtime w
                   (Some (lit "demo.myshopify.com"))) (now w) with
        | Ok xml => feed_response xml
        | Throw message => error_response (failure_label Rss) message
        end,
     [] ++ [products_request (lit "demo.myshopify.com") (lit "token")]).
Proof.
  intros ps w.
  apply (feed_all_or_nothing Samples.sample_runtime w
           (lit "demo.myshopify.com") (lit "token"));
    [reflexivity | reflexivity | discriminate | discriminate | reflexivity
    | discriminate].
Defined.

Lemma count_of_upstream_products_witness :
  let ps := [ Samples.sample_product "mug" None None;
              Samples.sample_product "cup" None None ] in
  let w := Samples.sample_world Samples.configured_env ps in
  handle_request Samples.sample_runtime ProductsCount w []
  = (Ok {| res_status := 200;
           res_content_type := None;
           res_body :=
             Json [ ("count"%string, VNum 2);
                    ("message"%string, VStr (count_message 2)) ] |},
     [] ++ [products_request (lit "demo.myshopify.com") (lit "token")]).
Proof.
  intros ps w.
  exact (count_of_upstream_products Samples.sample_runtime w
           (lit "demo.myshopify.com") (lit "token") eq_refl eq_refl
           ltac:(discriminate) ltac:(discriminate) [] ps eq_refl).
Defined.

Lemma handler_channel_witness :
  let ps := [ Samples.sample_product "mug" None None ] in
  let w := Samples.sample_world Samples.configured_env ps in
  let config :=
    feed_config Samples.sample_runtime w
      (env w !! "SHOPIFY_SHOP_DOMAIN"%string) in
  let ch := rss_channel (rssObject Samples.sample_runtime ps config (now w)) in
  ch_link ch = lit "https://demo.myshopify.com" /\
  ch_title ch = default_title.
Proof.
  intros ps w config ch.
  destruct (handler_channel Samples.sample_runtime w
              (lit "demo.myshopify.com") ps eq_refl)
    as (H1 & _ & H3 & _).
  split; [exact H1|exact H3].
Defined.

End HandlerFacts.
